(** * StatusTracker and the image-editor bridge: a shallow embedding

    The development follows
    [ui/packages/app/src/components/StatusTracker/StatusTracker.svelte]
    (the page-wide scroll coordinator of the module script, and the
    per-instance timer / eta display of the instance script) and the
    image-editor component that embeds an iframe and talks to it with
    [postMessage].

    Conventions.
    - A JavaScript number is a rational [Q]: the arithmetic of the component
      ([+], [-], [/ 1000], [Math.min]) is taken exactly, NaN and the
      infinities are left out.  [===] on numbers is [Qeq_bool].
    - [performance.now()] is an argument [now] (milliseconds) of every
      function that reads the clock.
    - [requestAnimationFrame] queues are counters of queued callbacks: all
      the callbacks queued by one closure are the same code.
    - A reactive statement [$: ...] is the function of its body, run by the
      event that changes what it depends on. [Timer] has the bodies, and
      events that run one statement each; [Component] has the component as
      it is compiled: a supplied prop is compared with the value held, the
      statements of one update run in a fixed order, and [progress] is a
      variable that keeps its value between two runs of its statement. *)

From Stdlib Require Import QArith Qround Qminmax Lqa ZArith List String Ascii Bool Lia.
From Stdlib Require Import DecimalString Permutation.
Import ListNotations.

Local Open Scope Q_scope.

(** ** The scroll coordinator (module script) *)

Module Scroll.

(** A handle on an [HTMLDivElement]. *)
Definition element := nat.

(** The page: [window.__gradio_mode__], the two module variables [items]
    and [called], the calls of [scroll_into_view] suspended at
    [await tick()], the flush callbacks queued with
    [requestAnimationFrame], [window.scrollY], and the [top] of every
    [window.scrollTo] issued so far. *)
Record page := mkPage {
  gradio_mode : option string;
  items : list element;
  called : bool;
  awaiting_tick : nat;
  frame_queue : nat;
  scrollY : Q;
  scrollTo_calls : list Q
}.

Definition mode_is (m : option string) (s : string) : bool :=
  match m with
  | Some m' => String.eqb m' s
  | None => false
  end.

(** [enable : boolean | null]; [enable !== true]. *)
Definition not_true (enable : option bool) : bool :=
  match enable with
  | Some true => false
  | _ => true
  end.

(** The condition of the first [if] of [scroll_into_view]. *)
Definition guard (w : page) (enable : option bool) : bool :=
  mode_is (gradio_mode w) "website"
  || (negb (mode_is (gradio_mode w) "app") && not_true enable).

(** [scroll_into_view(el, enable)] up to [await tick()]. *)
Definition scroll_into_view (el : element) (enable : option bool) (w : page)
  : page :=
  if guard w enable then w
  else
    let its := items w ++ [el] in
    if negb (called w)
    then mkPage (gradio_mode w) its true (S (awaiting_tick w))
                (frame_queue w) (scrollY w) (scrollTo_calls w)
    else mkPage (gradio_mode w) its (called w) (awaiting_tick w)
                (frame_queue w) (scrollY w) (scrollTo_calls w).

(** The parameter's default: an omitted argument is [true]. *)
Definition scroll_into_view_default (el : element) (enable : option (option bool))
  (w : page) : page :=
  match enable with
  | Some e => scroll_into_view el e w
  | None => scroll_into_view el (Some true) w
  end.

(** [tick()] resolves: every suspended call goes on and queues its callback
    with [requestAnimationFrame]. *)
Definition tick (w : page) : page :=
  mkPage (gradio_mode w) (items w) (called w) 0
         (frame_queue w + awaiting_tick w) (scrollY w) (scrollTo_calls w).

(** The [for] loop of the callback, from index [i] on; [min] is the pair
    [min[0], min[1]], [top] is [getBoundingClientRect().top] as the frame
    finds it. *)
Fixpoint flush_loop (top : element -> Q) (sy : Q) (els : list element)
  (i : nat) (min : Q * nat) : Q * nat :=
  match els with
  | [] => min
  | el :: rest =>
      let pos := top el + sy in
      flush_loop top sy rest (S i)
        (if Nat.eqb i 0 || Qle_bool pos (fst min) then (pos, i) else min)
  end.

(** [min] when the loop is over. *)
Definition flush_min (top : element -> Q) (w : page) : Q * nat :=
  flush_loop top (scrollY w) (items w) 0%nat (0, 0%nat).

(** The callback given to [requestAnimationFrame]. *)
Definition flush (top : element -> Q) (w : page) : page :=
  let min := flush_min top w in
  mkPage (gradio_mode w) [] false (awaiting_tick w) (frame_queue w)
         (scrollY w) (scrollTo_calls w ++ [fst min - 20]).

(** An animation frame: the callbacks queued before it run, one after the
    other. *)
Definition animation_frame (top : element -> Q) (w : page) : page :=
  Nat.iter (frame_queue w) (flush top)
    (mkPage (gradio_mode w) (items w) (called w) (awaiting_tick w) 0
            (scrollY w) (scrollTo_calls w)).

(** The page is scrolled, by the user or by a smooth scroll under way. *)
Definition scrolled (y : Q) (w : page) : page :=
  mkPage (gradio_mode w) (items w) (called w) (awaiting_tick w)
         (frame_queue w) y (scrollTo_calls w).

(** A synchronous update pass: the calls in the order the widgets make
    them. *)
Definition update_pass (reqs : list (element * option bool)) (w : page) : page :=
  fold_left (fun w r => scroll_into_view (fst r) (snd r) w) reqs w.

(** The requests of a pass that the guard lets through. *)
Definition accepted (w : page) (reqs : list (element * option bool))
  : list element :=
  map fst (filter (fun r => negb (guard w (snd r))) reqs).

(** Nothing pending: no item, no flush scheduled. *)
Definition idle (w : page) : Prop :=
  items w = [] /\ called w = false /\ awaiting_tick w = 0%nat
  /\ frame_queue w = 0%nat.

(** The position of the [j]-th item, as the flush reads it. *)
Definition position (top : element -> Q) (sy : Q) (els : list element)
  (j : nat) : Q :=
  top (nth j els 0%nat) + sy.

(** The tie rule as the spec words it: of the items at the position the
    flush picks, the one it records is the earliest registered. *)
Definition ties_to_earliest (top : element -> Q) (w : page) : Prop :=
  forall j, (j < List.length (items w))%nat ->
    position top (scrollY w) (items w) j == fst (flush_min top w) ->
    (snd (flush_min top w) <= j)%nat.

(** What can happen to the page: a widget calls [scroll_into_view], the
    pending [tick()] resolves, an animation frame comes (with the layout it
    finds), the page is scrolled. *)
Inductive action :=
| Request (el : element) (enable : option bool)
| Tick
| Animation (top : element -> Q)
| Scrolled (y : Q).

Definition act (w : page) (a : action) : page :=
  match a with
  | Request el enable => scroll_into_view el enable w
  | Tick => tick w
  | Animation top => animation_frame top w
  | Scrolled y => scrolled y w
  end.

Definition run_actions (acts : list action) (w : page) : page :=
  fold_left act acts w.

(** The two shapes of the page: nothing pending, or one batch that is not
    empty with exactly one flush on its way (suspended at [tick()] or queued
    for the next frame). *)
Definition well_batched (w : page) : Prop :=
  idle w
  \/ (called w = true /\ items w <> []
      /\ (awaiting_tick w + frame_queue w = 1)%nat).

End Scroll.

(** ** Numbers as the component prints and compares them *)

(** [Math.min(a, b)]. *)
Definition Math_min (a b : Q) : Q := if Qle_bool a b then a else b.

(** [x.toFixed(1)] on the exact number, for [|x| < 10^21] (from there on
    [toFixed] prints an exponent): the sign first, then the integer [n] for
    which [n / 10 - |x|] is nearest to zero (the larger [n] of two), printed
    with one digit after the point. A double that lies just under a decimal
    tie, as the double of 1.45 does, prints the lower digit in JavaScript;
    the rational 1.45 of this model is the tie itself and prints the
    upper. *)
Definition toFixed1 (x : Q) : string :=
  let neg := negb (Qle_bool 0 x) in
  let a := if neg then - x else x in
  let n := Z.to_N (Qfloor (a * 10 + (1 # 2))) in
  let m := (NilZero.string_of_uint (N.to_uint (n / 10))
            ++ "." ++ NilZero.string_of_uint (N.to_uint (n mod 10)))%string in
  if neg then String "-" m else m.

(** ** The timer and the eta display (instance script) *)

Module Timer.

Inductive status_t := complete | pending | error.

Definition is_pending (st : status_t) : bool :=
  match st with pending => true | _ => false end.

(** The props [eta], [queue], [status]; the variables [_timer],
    [timer_start], [timer_diff], [old_eta], [formatted_eta]; and the number
    of callbacks of [run] waiting for the next animation frame. *)
Record tracker := mkTracker {
  eta : option Q;
  queue : bool;
  status : status_t;
  _timer : bool;
  timer_start : Q;
  timer_diff : Q;
  old_eta : option Q;
  formatted_eta : option string;
  frames : nat
}.

(** The component as its script leaves it, before any reactive statement
    has run. *)
Definition initial (eta0 : option Q) (queue0 : bool) (status0 : status_t)
  : tracker :=
  mkTracker eta0 queue0 status0 false 0 0 None None 0.

(** The expression of [$: progress = eta === null || eta <= 0 ||
    !timer_diff ? null : Math.min(timer_diff / eta, 1)]: the value that the
    statement assigns when it runs. The variable that holds it between two
    runs is [Component.progress]. *)
Definition progress (s : tracker) : option Q :=
  match eta s with
  | None => None
  | Some e =>
      if Qle_bool e 0 || Qeq_bool (timer_diff s) 0 then None
      else Some (Math_min (timer_diff s / e) 1)
  end.

(** [$: formatted_timer = timer_diff.toFixed(1)]. *)
Definition formatted_timer (s : tracker) : string := toFixed1 (timer_diff s).

(** [run()]: one more callback waits for the next frame. *)
Definition run (s : tracker) : tracker :=
  mkTracker (eta s) (queue s) (status s) (_timer s) (timer_start s)
            (timer_diff s) (old_eta s) (formatted_eta s) (S (frames s)).

(** The callback that [run] queues. *)
Definition run_callback (now : Q) (s : tracker) : tracker :=
  let s' :=
    mkTracker (eta s) (queue s) (status s) (_timer s) (timer_start s)
              ((now - timer_start s) / 1000) (old_eta s) (formatted_eta s)
              (frames s) in
  if _timer s' then run s' else s'.

Definition start_timer (now : Q) (s : tracker) : tracker :=
  run (mkTracker (eta s) (queue s) (status s) true now 0 (old_eta s)
                 (formatted_eta s) (frames s)).

Definition stop_timer (s : tracker) : tracker :=
  let s' :=
    mkTracker (eta s) (queue s) (status s) (_timer s) (timer_start s) 0
              (old_eta s) (formatted_eta s) (frames s) in
  if negb (_timer s') then s'
  else mkTracker (eta s') (queue s') (status s') false (timer_start s')
                 (timer_diff s') (old_eta s') (formatted_eta s') (frames s').

(** The hook given to [onDestroy]. *)
Definition onDestroy (s : tracker) : tracker :=
  if _timer s then stop_timer s else s.

(** [$: { if (status === "pending") start_timer(); else stop_timer(); }]. *)
Definition status_block (now : Q) (s : tracker) : tracker :=
  if is_pending (status s) then start_timer now s else stop_timer s.

(** The reactive statement that projects [eta] and keeps [old_eta] and
    [formatted_eta]. *)
Definition eta_block (now : Q) (s : tracker) : tracker :=
  let eta1 :=
    match eta s with
    | None => old_eta s
    | Some e => if queue s then Some ((now - timer_start s) / 1000 + e)
                else Some e
    end in
  match eta1 with
  | Some e1 =>
      mkTracker eta1 (queue s) (status s) (_timer s) (timer_start s)
                (timer_diff s) (Some e1) (Some (toFixed1 e1)) (frames s)
  | None =>
      mkTracker eta1 (queue s) (status s) (_timer s) (timer_start s)
                (timer_diff s) (old_eta s) (formatted_eta s) (frames s)
  end.

(** An animation frame at [now]: the callbacks queued before it run; those
    they queue wait for the next one. *)
Definition animation_frame (now : Q) (s : tracker) : tracker :=
  Nat.iter (frames s) (run_callback now)
    (mkTracker (eta s) (queue s) (status s) (_timer s) (timer_start s)
               (timer_diff s) (old_eta s) (formatted_eta s) 0).

(** The parent supplies a prop with a value that differs from the one held:
    the prop is assigned and the statement that depends on it runs. A value
    equal to the one held runs nothing; the comparison, and the order of the
    statements when several props come at once, are in [Component.supply]
    and [Component.update]. *)
Definition set_status (st : status_t) (now : Q) (s : tracker) : tracker :=
  status_block now
    (mkTracker (eta s) (queue s) st (_timer s) (timer_start s) (timer_diff s)
               (old_eta s) (formatted_eta s) (frames s)).

Definition set_eta (e : option Q) (now : Q) (s : tracker) : tracker :=
  eta_block now
    (mkTracker e (queue s) (status s) (_timer s) (timer_start s) (timer_diff s)
               (old_eta s) (formatted_eta s) (frames s)).

Definition set_queue (q : bool) (now : Q) (s : tracker) : tracker :=
  eta_block now
    (mkTracker (eta s) q (status s) (_timer s) (timer_start s) (timer_diff s)
               (old_eta s) (formatted_eta s) (frames s)).

(** What can happen to a tracker. [Rerun_eta] is the eta statement run again
    because [timer_start] or [old_eta] changed. *)
Inductive event :=
| Status (st : status_t)
| Eta (e : option Q)
| Queue (q : bool)
| Rerun_eta
| Frame
| Destroy.

Definition step (now : Q) (ev : event) (s : tracker) : tracker :=
  match ev with
  | Status st => set_status st now s
  | Eta e => set_eta e now s
  | Queue q => set_queue q now s
  | Rerun_eta => eta_block now s
  | Frame => animation_frame now s
  | Destroy => onDestroy s
  end.

(** A history: events with the value of [performance.now()] at each. *)
Definition history := list (Q * event).

Definition play (h : history) (s : tracker) : tracker :=
  fold_left (fun s te => step (fst te) (snd te) s) h s.

(** [performance.now()] never goes back: the times of a history from [t]
    on. *)
Fixpoint monotonic (t : Q) (h : history) : Prop :=
  match h with
  | [] => True
  | (t', _) :: h' => t <= t' /\ monotonic t' h'
  end.

(** The states a tracker can be in. *)
Definition reachable (s : tracker) : Prop :=
  exists eta0 queue0 status0 h,
    monotonic 0 h /\ s = play h (initial eta0 queue0 status0).

(** The fraction of the spec: [x] clamped to [[0, 1]]. *)
Definition clamp01 (x : Q) : Q := Qmax 0 (Qmin x 1).

(** The state after a frame at [now] in which at least one callback ran. *)
Definition ticked (now : Q) (s : tracker) (k : nat) : tracker :=
  mkTracker (eta s) (queue s) (status s) (_timer s) (timer_start s)
            ((now - timer_start s) / 1000) (old_eta s) (formatted_eta s) k.

(** The clock bounds the start, and the elapsed time is not negative. *)
Definition timed (t : Q) (s : tracker) : Prop :=
  timer_start s <= t /\ 0 <= timer_diff s.

(** The events that run the eta statement. *)
Definition runs_eta_block (ev : event) : bool :=
  match ev with
  | Eta _ | Queue _ | Rerun_eta => true
  | _ => false
  end.

(** A prop that may be left out, be [null], or be a number. *)
Inductive prop_number :=
| js_undefined
| js_null
| js_number (q : Q).

(** The text before the timer: [queue: p/size |] or [processing |]. *)
Inductive queue_line :=
| Queue_of (p : Q) (size : prop_number)
| Processing
| No_line.

(** [{#if queue_position !== null && queue_size !== undefined &&
    queue_position >= 0} queue: {queue_position + 1}/{queue_size} |
    {:else if queue_position === 0} processing | {/if}]. *)
Definition queue_text (queue_position queue_size : prop_number) : queue_line :=
  let not_null :=
    match queue_position with js_null => false | _ => true end in
  let size_defined :=
    match queue_size with js_undefined => false | _ => true end in
  let at_least_0 :=
    match queue_position with
    | js_number p => Qle_bool 0 p
    | js_null => true
    | js_undefined => false
    end in
  if not_null && size_defined && at_least_0 then
    match queue_position with
    | js_number p => Queue_of (p + 1) queue_size
    | _ => No_line
    end
  else
    match queue_position with
    | js_number p => if Qeq_bool p 0 then Processing else No_line
    | _ => No_line
    end.

(** [{#if timer} {formatted_timer}{eta ? `/${formatted_eta}` : ""} {/if}],
    [timer] being the prop of that name. *)
Definition timer_text (timer : bool) (s : tracker) : string :=
  if timer then
    (formatted_timer s
     ++ match eta s with
        | Some e =>
            if Qeq_bool e 0 then ""
            else "/" ++ match formatted_eta s with
                        | Some f => f
                        | None => "null"
                        end
        | None => ""
        end)%string
  else ""%string.

(** [$: el && scroll_to_output && (status === "pending" || status ===
    "complete") && scroll_into_view(el, $app_state.autoscroll)]; the store's
    [autoscroll] is an argument, [None] when the store has none. *)
Definition scroll_statement (el : option Scroll.element)
  (scroll_to_output : bool) (st : status_t)
  (autoscroll : option (option bool)) (w : Scroll.page) : Scroll.page :=
  match el with
  | Some el' =>
      if scroll_to_output
         && match st with pending | complete => true | error => false end
      then Scroll.scroll_into_view_default el' autoscroll w
      else w
  | None => w
  end.

End Timer.

(** ** The tracker as the compiled component runs it *)

(** The compiled component keeps [progress] and [formatted_timer] as
    variables, remembers which variables have been assigned a value that
    differs from the one held (they are dirty), and at every update runs
    the reactive statements once, in this order: the eta statement (which
    assigns [eta], read by the next), the progress statement, the status
    statement, the scroll statement, the statement of [formatted_timer];
    each one only if a variable it reads is dirty at its turn. An
    assignment made by a statement is seen by the statements after it, not
    by those before it. The scroll statement acts on the page only and is
    left to [scroll_statement]. *)

Module Component.
Import Timer.

(** [a !== b] on numbers, on [number | null], on the status. *)
Definition changed_number (a b : Q) : bool := negb (Qeq_bool a b).

Definition changed_nullable (a b : option Q) : bool :=
  match a, b with
  | Some x, Some y => changed_number x y
  | None, None => false
  | _, _ => true
  end.

Definition changed_status (a b : status_t) : bool :=
  match a, b with
  | complete, complete | pending, pending | error, error => false
  | _, _ => true
  end.

(** The dirty marks of the variables that a statement reads. *)
Record dirty := mkDirty {
  eta_dirty : bool;
  queue_dirty : bool;
  status_dirty : bool;
  timer_start_dirty : bool;
  timer_diff_dirty : bool;
  old_eta_dirty : bool
}.

Definition clean : dirty := mkDirty false false false false false false.

(** At the creation of the component every mark is set. *)
Definition every : dirty := mkDirty true true true true true true.

(** The marks after assignments that have led from [s] to [s']. *)
Definition mark (s s' : tracker) (d : dirty) : dirty :=
  mkDirty (eta_dirty d || changed_nullable (eta s) (eta s'))
          (queue_dirty d || xorb (queue s) (queue s'))
          (status_dirty d || changed_status (status s) (status s'))
          (timer_start_dirty d || changed_number (timer_start s) (timer_start s'))
          (timer_diff_dirty d || changed_number (timer_diff s) (timer_diff s'))
          (old_eta_dirty d || changed_nullable (old_eta s) (old_eta s')).

(** The component: the variables of the script, and the two variables that
    reactive declarations define. *)
Record widget := mkWidget {
  vars : tracker;
  progress : option Q;
  formatted_timer : string
}.

(** One update, at [now], with the marks [d]. *)
Definition update (now : Q) (d : dirty) (w : widget) : widget :=
  let s0 := vars w in
  let s1 :=
    if eta_dirty d || old_eta_dirty d || queue_dirty d || timer_start_dirty d
    then eta_block now s0 else s0 in
  let d1 := mark s0 s1 d in
  let p :=
    if eta_dirty d1 || timer_diff_dirty d1 then Timer.progress s1
    else progress w in
  let s2 := if status_dirty d1 then status_block now s1 else s1 in
  let d2 := mark s1 s2 d1 in
  let f :=
    if timer_diff_dirty d2 then Timer.formatted_timer s2
    else formatted_timer w in
  mkWidget s2 p f.

(** The creation: the script has run, then every statement runs. *)
Definition create (eta0 : option Q) (queue0 : bool) (status0 : status_t)
  (now : Q) : widget :=
  update now every (mkWidget (initial eta0 queue0 status0) None "").

(** A prop that the parent sets. *)
Inductive assignment :=
| Set_eta (e : option Q)
| Set_queue (q : bool)
| Set_status (st : status_t).

Definition assign (a : assignment) (s : tracker) : tracker :=
  match a with
  | Set_eta e =>
      mkTracker e (queue s) (status s) (_timer s) (timer_start s)
                (timer_diff s) (old_eta s) (formatted_eta s) (frames s)
  | Set_queue q =>
      mkTracker (eta s) q (status s) (_timer s) (timer_start s)
                (timer_diff s) (old_eta s) (formatted_eta s) (frames s)
  | Set_status st =>
      mkTracker (eta s) (queue s) st (_timer s) (timer_start s)
                (timer_diff s) (old_eta s) (formatted_eta s) (frames s)
  end.

(** The props set before one update, each marked if it differs from the
    value held. *)
Definition set_props (ps : list assignment) (s : tracker) (d : dirty)
  : tracker * dirty :=
  fold_left (fun sd a => (assign a (fst sd), mark (fst sd) (assign a (fst sd)) (snd sd)))
            ps (s, d).

(** The parent supplies props; the update follows. *)
Definition supply (ps : list assignment) (now : Q) (w : widget) : widget :=
  let sd := set_props ps (vars w) clean in
  update now (snd sd) (mkWidget (fst sd) (progress w) (formatted_timer w)).

(** One callback of [run], and the update that its assignment brings. *)
Definition callback (now : Q) (w : widget) : widget :=
  let s' := run_callback now (vars w) in
  update now (mark (vars w) s' clean)
         (mkWidget s' (progress w) (formatted_timer w)).

(** An animation frame at [now]. *)
Definition animation_frame (now : Q) (w : widget) : widget :=
  Nat.iter (frames (vars w)) (callback now)
    (mkWidget
       (mkTracker (eta (vars w)) (queue (vars w)) (status (vars w))
                  (_timer (vars w)) (timer_start (vars w))
                  (timer_diff (vars w)) (old_eta (vars w))
                  (formatted_eta (vars w)) 0)
       (progress w) (formatted_timer w)).

(** What happens to a component between its creation and its teardown. *)
Inductive event :=
| Props (ps : list assignment)
| Frame.

Definition step (now : Q) (ev : event) (w : widget) : widget :=
  match ev with
  | Props ps => supply ps now w
  | Frame => animation_frame now w
  end.

Definition play (h : list (Q * event)) (w : widget) : widget :=
  fold_left (fun w te => step (fst te) (snd te) w) h w.

Fixpoint monotonic (t : Q) (h : list (Q * event)) : Prop :=
  match h with
  | [] => True
  | (t', _) :: h' => t <= t' /\ monotonic t' h'
  end.

(** The states of a component that has been created and not torn down. *)
Definition live (w : widget) : Prop :=
  exists eta0 queue0 status0 t0 h,
    0 <= t0 /\ monotonic t0 h
    /\ w = play h (create eta0 queue0 status0 t0).

(** [scaleX({progress || 0})]. *)
Definition bar_scale (w : widget) : Q :=
  match progress w with
  | Some p => if Qeq_bool p 0 then 0 else p
  | None => 0
  end.

(** Two values of [number | null] that are the same number, or both null. *)
Definition same_number (a b : option Q) : Prop :=
  match a, b with
  | Some x, Some y => x == y
  | None, None => True
  | _, _ => False
  end.

(** The held [progress] is what the progress statement gives on some state
    [s0] whose [eta] and elapsed time are those of the component, as far as
    the marks [d] do not say otherwise; the elapsed time may also have been
    set to 0 since. *)
Definition follows (d : dirty) (w : widget) : Prop :=
  exists s0,
    0 <= timer_diff s0
    /\ same_number (progress w) (Timer.progress s0)
    /\ (eta_dirty d = false -> same_number (eta s0) (eta (vars w)))
    /\ (timer_diff_dirty d = false ->
        timer_diff s0 == timer_diff (vars w) \/ timer_diff (vars w) == 0).

(** The two facts that every event keeps: the clock bounds the start and the
    elapsed time is not negative; the held progress is that of the last
    run. *)
Definition sound (t : Q) (w : widget) : Prop :=
  timed t (vars w) /\ follows clean w.


End Component.

(** ** The image editor and its iframe *)

Module Editor.

(** A browsing context ([Window]). *)
Definition window := nat.

(** [{ image: string | null; mask: string | null }]: the prop [value], and
    the [detail] of an output message. *)
Record image_value := mkValue {
  image : option string;
  mask : option string
}.

(** [e.data] as far as the handler reads it. *)
Record message_data := mkData {
  type : option string;
  detail : option image_value
}.

(** A [MessageEvent]: the handler is given [data], [origin] and [source]. *)
Record MessageEvent := mkEvent {
  data : option message_data;
  origin : string;
  source : option window
}.

(** The [<iframe>]: [contentWindow] is [null] while it has no browsing
    context. *)
Record iframe := mkIframe {
  contentWindow : option window
}.

(** One [postMessage(message, targetOrigin)]: the receiver, the message's
    [type], the key that carries the image ([image] or [detail]), the image,
    and the target origin. *)
Record posted_message := mkPosted {
  receiver : window;
  message_type : string;
  payload_key : string;
  payload : option string;
  targetOrigin : string
}.

(** The component: the prop [value], [imageEditor] (set by [bind:this]),
    [imageEditorValue], whether [processMessages] listens on the window,
    the messages posted and the [change] events dispatched so far. *)
Record editor := mkEditor {
  value : image_value;
  imageEditor : option iframe;
  imageEditorValue : option string;
  listening : bool;
  posted : list posted_message;
  dispatched : list image_value
}.

Definition same_image (a b : option string) : bool :=
  match a, b with
  | Some x, Some y => String.eqb x y
  | None, None => true
  | _, _ => false
  end.

(** [win?.postMessage({ type: "image-editor-input", [key]: img }, '*')]. *)
Definition postMessage (win : option window) (key : string)
  (img : option string) (s : editor) : editor :=
  match win with
  | Some w =>
      mkEditor (value s) (imageEditor s) (imageEditorValue s) (listening s)
               (posted s ++ [mkPosted w "image-editor-input" key img "*"])
               (dispatched s)
  | None => s
  end.

Definition compareValues (val : image_value) (s : editor) : editor :=
  match imageEditor s with
  | Some fr =>
      if negb (same_image (imageEditorValue s) (image val))
      then postMessage (contentWindow fr) "image" (image (value s)) s
      else s
  | None => s
  end.

(** [$: { compareValues(value); }]. *)
Definition value_block (s : editor) : editor := compareValues (value s) s.

(** What a call leaves: the state when it returns, or the state when a
    [TypeError] (a property of [undefined]) is thrown. *)
Inductive outcome :=
| Returned (s : editor)
| Thrown (s : editor).

Definition and_then (o : outcome) (k : editor -> outcome) : outcome :=
  match o with
  | Returned s => k s
  | Thrown s => Thrown s
  end.

(** [e.data?.type === t]. *)
Definition type_is (e : MessageEvent) (t : string) : bool :=
  match data e with
  | Some d =>
      match type d with
      | Some t' => String.eqb t' t
      | None => false
      end
  | None => false
  end.

(** The first [if] of [processMessages]. *)
Definition on_loaded (e : MessageEvent) (s : editor) : outcome :=
  if type_is e "loaded" then
    match imageEditor s with
    | Some fr =>
        Returned (postMessage (contentWindow fr) "detail" (image (value s)) s)
    | None => Thrown s
    end
  else Returned s.

(** The second [if] of [processMessages]. *)
Definition on_output (e : MessageEvent) (s : editor) : outcome :=
  if type_is e "image-editor-output" then
    match data e with
    | Some (mkData _ (Some d)) =>
        let s1 :=
          mkEditor (value s) (imageEditor s) (imageEditorValue s)
                   (listening s) (posted s)
                   (dispatched s ++ [mkValue (image d) (mask d)]) in
        let s2 :=
          mkEditor (value s1) (imageEditor s1) (image d) (listening s1)
                   (posted s1) (dispatched s1) in
        let s3 :=
          mkEditor (mkValue (image (value s2)) (mask d)) (imageEditor s2)
                   (imageEditorValue s2) (listening s2) (posted s2)
                   (dispatched s2) in
        Returned
          (mkEditor (mkValue (image d) (mask (value s3))) (imageEditor s3)
                    (imageEditorValue s3) (listening s3) (posted s3)
                    (dispatched s3))
    | _ => Thrown s
    end
  else Returned s.

Definition processMessages (e : MessageEvent) (s : editor) : outcome :=
  and_then (on_loaded e s) (on_output e).

(** [onMount]: [bind:this] has set [imageEditor]; the handler is added to
    the window. *)
Definition onMount (fr : iframe) (s : editor) : editor :=
  mkEditor (value s) (Some fr) (imageEditorValue s) true (posted s)
           (dispatched s).

(** [onDestroy]: the handler is removed. *)
Definition onDestroy (s : editor) : editor :=
  mkEditor (value s) (imageEditor s) (imageEditorValue s) false (posted s)
           (dispatched s).

(** The window receives a message: the handler runs if it listens, and the
    statement on [value] runs again when the handler has assigned to
    [value]. *)
Definition message_event (e : MessageEvent) (s : editor) : outcome :=
  if listening s then
    and_then (processMessages e s)
      (fun s' =>
         Returned (if type_is e "image-editor-output" then value_block s'
                   else s'))
  else Returned s.

(** The state a call leaves, returned or thrown. *)
Definition state_of (o : outcome) : editor :=
  match o with
  | Returned s => s
  | Thrown s => s
  end.

(** The parent supplies [value]; the statement on [value] runs. *)
Definition set_value (v : image_value) (s : editor) : editor :=
  value_block
    (mkEditor v (imageEditor s) (imageEditorValue s) (listening s) (posted s)
              (dispatched s)).

(** What can happen to an editor. A handler that throws leaves the component
    in the state it had reached. *)
Inductive event :=
| Mount (fr : iframe)
| Destroy
| Message (e : MessageEvent)
| Value (v : image_value).

Definition step (s : editor) (ev : event) : editor :=
  match ev with
  | Mount fr => onMount fr s
  | Destroy => onDestroy s
  | Message e => state_of (message_event e s)
  | Value v => set_value v s
  end.

Definition play (h : list event) (s : editor) : editor := fold_left step h s.

(** What every message posted to the iframe has in common. *)
Definition input_message (m : posted_message) : Prop :=
  message_type m = "image-editor-input"%string
  /\ targetOrigin m = "*"%string
  /\ (payload_key m = "image"%string \/ payload_key m = "detail"%string).

End Editor.

(** * Properties *)

(** ** The scroll coordinator *)

Module ScrollFacts.
Import Scroll.

Section Loop.
Variable top : element -> Q.
Variable sy : Q.

Local Abbreviation pos := (position top sy).

(** From an index [i > 0] the loop either keeps [min], every later item
    lying strictly below it on the page, or takes the last item that is
    nowhere below the others and not below [min]. *)
Lemma flush_loop_from (els : list element) :
  forall (i : nat) (m : Q) (k : nat),
    i <> 0%nat ->
    let r := flush_loop top sy els i (m, k) in
    (r = (m, k) /\ forall j, (j < List.length els)%nat -> m < pos els j)
    \/ (exists j, (j < List.length els)%nat /\ r = (pos els j, (i + j)%nat)
        /\ pos els j <= m
        /\ (forall j', (j' < List.length els)%nat -> pos els j <= pos els j')
        /\ (forall j', (j < j' < List.length els)%nat -> pos els j < pos els j')).
Proof.
  induction els as [|el rest IH]; intros i m k Hi; cbn zeta.
  - left. split; [reflexivity|]. cbn. intros j Hj. lia.
  - cbn [flush_loop fst].
    destruct (Nat.eqb_spec i 0) as [->|_]; [contradiction|].
    cbn [orb].
    destruct (Qle_bool (top el + sy) m) eqn:Hle.
    + apply Qle_bool_iff in Hle.
      destruct (IH (S i) (top el + sy) i (Nat.neq_succ_0 i))
        as [[Hr Hall]|[j [Hj [Hr [Hjm [Hmin Hlast]]]]]].
      * right. exists 0%nat. cbn [List.length].
        split; [lia|]. split; [rewrite Hr; f_equal; lia|].
        split; [exact Hle|]. split.
        -- intros [|j'] Hj'; unfold position; cbn [nth]; [lra|].
           specialize (Hall j' ltac:(lia)). unfold position in Hall. lra.
        -- intros [|j'] Hj'; [lia|]. unfold position; cbn [nth].
           specialize (Hall j' ltac:(lia)). unfold position in Hall. lra.
      * right. exists (S j). cbn [List.length].
        split; [lia|]. split; [rewrite Hr; unfold position; cbn [nth];
                               f_equal; lia|].
        unfold position in *. cbn [nth].
        split; [lra|]. split.
        -- intros [|j'] Hj'; [lra|]. apply Hmin. lia.
        -- intros [|j'] Hj'; [lia|]. apply Hlast. lia.
    + assert (Hlt : m < top el + sy).
      { apply Qnot_le_lt. intro H. apply Qle_bool_iff in H. congruence. }
      destruct (IH (S i) m k (Nat.neq_succ_0 i))
        as [[Hr Hall]|[j [Hj [Hr [Hjm [Hmin Hlast]]]]]].
      * left. split; [exact Hr|].
        intros [|j'] Hj'; unfold position; cbn [nth]; [exact Hlt|].
        apply (Hall j'). cbn [List.length] in Hj'. lia.
      * right. exists (S j). cbn [List.length].
        split; [lia|]. split; [rewrite Hr; unfold position; cbn [nth];
                               f_equal; lia|].
        unfold position in *. cbn [nth].
        split; [exact Hjm|]. split.
        -- intros [|j'] Hj'; [lra|]. apply Hmin. lia.
        -- intros [|j'] Hj'; [lia|]. apply Hlast. lia.
Qed.

(** The whole loop on a list that is not empty: [min[1]] is the last index
    of an item at the least position, [min[0]] is that position. *)
Lemma flush_loop_last_least (els : list element) (m0 : Q) (k0 : nat) :
  els <> [] ->
  exists k, (k < List.length els)%nat
    /\ flush_loop top sy els 0 (m0, k0) = (pos els k, k)
    /\ (forall j, (j < List.length els)%nat -> pos els k <= pos els j)
    /\ (forall j, (k < j < List.length els)%nat -> pos els k < pos els j).
Proof.
  destruct els as [|el rest]; [congruence|]. intros _.
  cbn [flush_loop Nat.eqb orb].
  destruct (flush_loop_from rest 1 (top el + sy) 0%nat ltac:(lia))
    as [[Hr Hall]|[j [Hj [Hr [Hjm [Hmin Hlast]]]]]].
  - exists 0%nat. cbn [List.length]. split; [lia|].
    split; [exact Hr|]. split.
    + intros [|j] Hj; unfold position; cbn [nth]; [lra|].
      specialize (Hall j ltac:(lia)). unfold position in Hall. lra.
    + intros [|j] Hj; [lia|]. unfold position; cbn [nth].
      specialize (Hall j ltac:(lia)). unfold position in Hall. lra.
  - exists (S j). cbn [List.length]. split; [lia|].
    split; [rewrite Hr; reflexivity|].
    unfold position in *. cbn [nth]. split.
    + intros [|j'] Hj'; [lra|]. apply Hmin. lia.
    + intros [|j'] Hj'; [lia|]. apply Hlast. lia.
Qed.

End Loop.

(** The guard reads the mode only, and a call leaves the mode alone. *)
Lemma scroll_into_view_mode (el : element) (en : option bool) (w : page) :
  gradio_mode (scroll_into_view el en w) = gradio_mode w.
Proof.
  unfold scroll_into_view.
  destruct (guard w en); [reflexivity|].
  destruct (negb (called w)); reflexivity.
Qed.

Lemma accepted_mode (w1 w2 : page) (reqs : list (element * option bool)) :
  gradio_mode w1 = gradio_mode w2 -> accepted w1 reqs = accepted w2 reqs.
Proof.
  intros H. unfold accepted, guard. rewrite H. reflexivity.
Qed.

(** A pass keeps the mode, the queues of frames, the scroll position and the
    scrolls; the items grow by the accepted requests; the first accepted
    request alone suspends at [await tick()]. *)
Lemma update_pass_effect (reqs : list (element * option bool)) :
  forall w,
    let w' := update_pass reqs w in
    gradio_mode w' = gradio_mode w
    /\ items w' = items w ++ accepted w reqs
    /\ called w' = (called w || negb (Nat.eqb (List.length (accepted w reqs)) 0))
    /\ awaiting_tick w' =
         (awaiting_tick w
          + if called w || Nat.eqb (List.length (accepted w reqs)) 0 then 0 else 1)%nat
    /\ frame_queue w' = frame_queue w
    /\ scrollY w' = scrollY w
    /\ scrollTo_calls w' = scrollTo_calls w.
Proof.
  induction reqs as [|[el en] reqs IH]; intros w; cbn zeta.
  - cbn. rewrite app_nil_r, orb_false_r, orb_true_r, Nat.add_0_r. tauto.
  - unfold update_pass. cbn [fold_left fst snd].
    fold (update_pass reqs (scroll_into_view el en w)).
    specialize (IH (scroll_into_view el en w)). cbn zeta in IH.
    destruct IH as (Hm & Hi & Hc & Ha & Hf & Hy & Hs).
    assert (Hacc : accepted (scroll_into_view el en w) reqs = accepted w reqs).
    { apply accepted_mode, scroll_into_view_mode. }
    rewrite Hacc in *.
    rewrite Hm, Hi, Hc, Ha, Hf, Hy, Hs. clear Hm Hi Hc Ha Hf Hy Hs Hacc.
    assert (Hcons : accepted w ((el, en) :: reqs) =
                    if guard w en then accepted w reqs
                    else el :: accepted w reqs).
    { unfold accepted. cbn [filter snd].
      destruct (guard w en); reflexivity. }
    rewrite Hcons. clear Hcons.
    unfold scroll_into_view.
    destruct (guard w en) eqn:Hg.
    + repeat split; reflexivity.
    + cbn [List.length Nat.eqb negb].
      destruct (called w) eqn:Hcw; cbn [negb items called gradio_mode
        awaiting_tick frame_queue scrollY scrollTo_calls orb];
        rewrite <- ?app_assoc; cbn [app];
        rewrite ?orb_true_r, ?Nat.add_0_r, ?orb_false_r;
        repeat split; try reflexivity.
      all: try (destruct (Nat.eqb (List.length (accepted w reqs)) 0); lia).
Qed.

(** The default of [enable] lets an omitted argument through on a page that
    is neither "website" nor "app", where [null] and [false] are refused. *)
Example omitted_enable_is_accepted :
  let w := mkPage None [] false 0 0 0 [] in
  items (scroll_into_view_default 3%nat None w) = [3%nat]
  /\ scroll_into_view_default 3%nat (Some None) w = w
  /\ scroll_into_view_default 3%nat (Some (Some false)) w = w.
Proof. repeat split; reflexivity. Qed.

(** C8. A call of [scroll_into_view] made while the mode is "website", or
    while the mode is not "app" and [enable] is not [true], changes nothing:
    the items, the flag [called], the suspended calls, the queued frames,
    the scroll position and the scrolls issued are those of before. *)
Theorem guard_rejects_is_noop (el : element) (enable : option bool) (w : page) :
  gradio_mode w = Some "website"%string
  \/ (gradio_mode w <> Some "app"%string /\ enable <> Some true) ->
  scroll_into_view el enable w = w.
Proof.
  intros H. unfold scroll_into_view, guard.
  destruct H as [H|[Happ Hen]].
  - rewrite H. reflexivity.
  - assert (Hn : mode_is (gradio_mode w) "app" = false).
    { unfold mode_is. destruct (gradio_mode w) as [m|]; [|reflexivity].
      destruct (String.eqb_spec m "app") as [->|]; [congruence|reflexivity]. }
    assert (Ht : not_true enable = true).
    { destruct enable as [[|]|]; [congruence|reflexivity|reflexivity]. }
    rewrite Hn, Ht. cbn [negb andb]. rewrite orb_true_r. reflexivity.
Qed.

Lemma guard_rejects_is_noop_witness :
  let w := mkPage (Some "website"%string) [4%nat] true 1 0 (35 # 2) [0] in
  (gradio_mode w = Some "website"%string
   \/ (gradio_mode w <> Some "app"%string /\ Some true <> Some true))
  /\ scroll_into_view 7%nat (Some true) w = w.
Proof.
  cbn zeta. split.
  - left. reflexivity.
  - apply (guard_rejects_is_noop 7%nat (Some true)). left. reflexivity.
Defined.

(** C1, as the code has it. A pass on an idle page with at least one
    accepted request leaves one call suspended at [await tick()], which
    queues one callback; the frame that runs it issues one [scrollTo], to
    20 pixels above the least [top + scrollY] read in that frame, and leaves
    the page idle. The index the loop records is the last one among the
    items at that least position: of two items at the same position the one
    registered later. *)
Theorem batch_flushes_once_to_topmost
  (w : page) (reqs : list (element * option bool)) (top : element -> Q) (sy : Q) :
  idle w ->
  accepted w reqs <> [] ->
  let batch := accepted w reqs in
  let w1 := update_pass reqs w in
  let w2 := scrolled sy (tick w1) in
  let w3 := animation_frame top w2 in
  items w1 = batch /\ awaiting_tick w1 = 1%nat /\ frame_queue w1 = 0%nat
  /\ items w2 = batch /\ awaiting_tick w2 = 0%nat /\ frame_queue w2 = 1%nat
  /\ idle w3
  /\ exists k, (k < List.length batch)%nat
       /\ flush_min top w2 = (position top sy batch k, k)
       /\ scrollTo_calls w3 = scrollTo_calls w ++ [position top sy batch k - 20]
       /\ forall j, (j < List.length batch)%nat ->
            position top sy batch k <= position top sy batch j
            /\ (position top sy batch j == position top sy batch k ->
                (j <= k)%nat).
Proof.
  intros (Hi & Hc & Ha & Hf) Hne. cbn zeta.
  destruct (update_pass_effect reqs w) as (Hm1 & Hi1 & Hc1 & Ha1 & Hf1 & Hy1 & Hs1).
  rewrite Hi in Hi1. cbn [app] in Hi1.
  rewrite Hc in Hc1, Ha1. rewrite Ha in Ha1. rewrite Hf in Hf1.
  assert (Hlen : Nat.eqb (List.length (accepted w reqs)) 0 = false).
  { destruct (accepted w reqs); [congruence|reflexivity]. }
  rewrite Hlen in Hc1, Ha1. cbn in Hc1, Ha1.
  split; [exact Hi1|]. split; [exact Ha1|]. split; [exact Hf1|].
  unfold scrolled, tick. cbn [items awaiting_tick frame_queue].
  rewrite Hf1, Ha1, Hi1. cbn [Nat.add].
  split; [reflexivity|]. split; [reflexivity|]. split; [reflexivity|].
  unfold animation_frame. cbn [frame_queue gradio_mode items called
    awaiting_tick scrollY scrollTo_calls].
  cbv [Nat.iter nat_rect].
  split; [unfold idle, flush; cbn; tauto|].
  destruct (flush_loop_last_least top sy (accepted w reqs) 0 0%nat Hne)
    as (k & Hk & Hr & Hmin & Hlast).
  exists k. split; [exact Hk|].
  unfold flush, flush_min.
  cbn [scrollY items gradio_mode called awaiting_tick frame_queue
       scrollTo_calls].
  rewrite Hr. cbn [fst]. rewrite Hs1.
  split; [reflexivity|]. split; [reflexivity|].
  intros j Hj. split; [apply Hmin; exact Hj|].
  intros Heq. destruct (Nat.le_gt_cases j k) as [Hle|Hgt]; [exact Hle|].
  specialize (Hlast j (conj Hgt Hj)). lra.
Qed.

(** Three widgets ask in one pass on an "app" page; the second and the third
    stand at the same height, above the first. *)
Lemma batch_flushes_once_to_topmost_witness :
  let w := mkPage (Some "app"%string) [] false 0 0 0 [] in
  let reqs := [(0%nat, Some true); (1%nat, None); (2%nat, Some false)] in
  let top := fun el : element => if Nat.eqb el 0 then 300 else 120 in
  let w2 := scrolled 50 (tick (update_pass reqs w)) in
  idle w /\ accepted w reqs <> []
  /\ awaiting_tick (update_pass reqs w) = 1%nat
  /\ frame_queue w2 = 1%nat
  /\ idle (animation_frame top w2).
Proof.
  cbn zeta.
  assert (Hidle : idle (mkPage (Some "app"%string) [] false 0 0 0 [])).
  { unfold idle. cbn. repeat split; reflexivity. }
  assert (Hacc : accepted (mkPage (Some "app"%string) [] false 0 0 0 [])
                   [(0%nat, Some true); (1%nat, None); (2%nat, Some false)]
                 <> []).
  { vm_compute. discriminate. }
  split; [exact Hidle|]. split; [exact Hacc|].
  destruct (batch_flushes_once_to_topmost _ _
              (fun el : element => if Nat.eqb el 0 then 300 else 120) 50
              Hidle Hacc)
    as (_ & Ha1 & _ & _ & _ & Hf2 & Hidle3 & _).
  split; [exact Ha1|]. split; [exact Hf2|]. exact Hidle3.
Defined.

(** The same pass, run: the loop records the third widget, and the page is
    asked to scroll to 150. *)
Example three_widgets_flush :
  let w := mkPage (Some "app"%string) [] false 0 0 0 [] in
  let reqs := [(0%nat, Some true); (1%nat, None); (2%nat, Some false)] in
  let top := fun el : element => if Nat.eqb el 0 then 300 else 120 in
  let w2 := scrolled 50 (tick (update_pass reqs w)) in
  flush_min top w2 = (120 + 50, 2%nat)
  /\ scrollTo_calls (animation_frame top w2) = [120 + 50 - 20].
Proof. split; reflexivity. Qed.

(** C1, the tie rule as the spec has it, fails: two widgets at the same
    height ask in one pass, and the loop records the second. *)
Lemma ties_to_earliest_fails :
  let w := mkPage (Some "app"%string) [] false 0 0 0 [] in
  let reqs := [(0%nat, Some true); (1%nat, Some true)] in
  let top := fun _ : element => 100 in
  ~ ties_to_earliest top (scrolled 0 (tick (update_pass reqs w))).
Proof.
  cbn zeta. intros H.
  specialize (H 0%nat). cbn in H.
  assert (Hle : (1 <= 0)%nat).
  { apply H; [lia|reflexivity]. }
  lia.
Qed.

(** *** Further properties of the coordinator *)

Lemma mode_is_other (m : option string) (t : string) :
  m <> Some t -> mode_is m t = false.
Proof.
  intros H. unfold mode_is. destruct m as [m'|]; [|reflexivity].
  destruct (String.eqb_spec m' t) as [->|]; [congruence|reflexivity].
Qed.

(** A frame with nothing queued leaves the page as it is; a frame with one
    callback queued runs the flush once. *)
Lemma animation_frame_nothing (top : element -> Q) (w : page) :
  frame_queue w = 0%nat -> animation_frame top w = w.
Proof.
  intros H. unfold animation_frame. rewrite H. destruct w; cbn in *.
  subst. reflexivity.
Qed.

Lemma animation_frame_one (top : element -> Q) (w : page) :
  frame_queue w = 1%nat ->
  animation_frame top w
  = mkPage (gradio_mode w) [] false (awaiting_tick w) 0 (scrollY w)
           (scrollTo_calls w ++ [fst (flush_min top w) - 20]).
Proof.
  intros H. unfold animation_frame. rewrite H. reflexivity.
Qed.

Lemma act_well_batched (w : page) (a : action) :
  well_batched w -> well_batched (act w a).
Proof.
  intros Hw. destruct a as [el en| |top|y]; cbn [act].
  - unfold scroll_into_view. destruct (guard w en); [exact Hw|].
    destruct Hw as [(Hi & Hc & Ha & Hf)|(Hc & Hi & Hs)]; rewrite Hc;
      cbn [negb]; right; cbn.
    + rewrite Hi, Ha, Hf. repeat split. discriminate.
    + repeat split; [|exact Hs]. destruct (items w); discriminate.
  - destruct Hw as [(Hi & Hc & Ha & Hf)|(Hc & Hi & Hs)].
    + left. unfold idle, tick. cbn. rewrite Ha, Hf. tauto.
    + right. unfold tick. cbn. repeat split; try assumption. lia.
  - destruct Hw as [(Hi & Hc & Ha & Hf)|(Hc & Hi & Hs)].
    + rewrite animation_frame_nothing by exact Hf. left.
      unfold idle. tauto.
    + destruct (frame_queue w) as [|[|n]] eqn:Hf; [| |lia].
      * rewrite animation_frame_nothing by exact Hf. right.
        rewrite Hf. tauto.
      * rewrite animation_frame_one by exact Hf. left.
        unfold idle. cbn. repeat split. lia.
  - exact Hw.
Qed.

Lemma run_actions_well_batched (acts : list action) :
  forall w, well_batched w -> well_batched (run_actions acts w).
Proof.
  induction acts as [|a acts IH]; intros w Hw; [exact Hw|].
  cbn. apply IH, act_well_batched, Hw.
Qed.

(** X1. From an idle page, whatever the order of calls, ticks, frames and
    scrolls: at most one flush is on its way, exactly when [called] is set,
    and [called] is set exactly when the batch is not empty. *)
Theorem one_flush_pending_at_most (w : page) (acts : list action) :
  idle w ->
  let w' := run_actions acts w in
  (awaiting_tick w' + frame_queue w' = if called w' then 1 else 0)%nat
  /\ (called w' = false -> items w' = [])
  /\ (called w' = true -> items w' <> []).
Proof.
  intros Hidle. cbn zeta.
  destruct (run_actions_well_batched acts w (or_introl Hidle))
    as [(Hi & Hc & Ha & Hf)|(Hc & Hi & Hs)]; rewrite Hc.
  - rewrite Ha, Hf. split; [reflexivity|].
    split; [intros _; exact Hi|discriminate].
  - split; [exact Hs|]. split; [discriminate|intros _; exact Hi].
Qed.

Lemma one_flush_pending_at_most_witness :
  let w := mkPage (Some "app"%string) [] false 0 0 0 [] in
  let acts := [Request 1%nat None; Tick; Request 2%nat (Some false);
               Scrolled 40; Request 3%nat (Some true)] in
  idle w
  /\ (awaiting_tick (run_actions acts w) + frame_queue (run_actions acts w)
      = 1)%nat
  /\ items (run_actions acts w) <> [].
Proof.
  cbn zeta.
  assert (Hidle : idle (mkPage (Some "app"%string) [] false 0 0 0 [])).
  { unfold idle. cbn. repeat split; reflexivity. }
  split; [exact Hidle|].
  destruct (one_flush_pending_at_most _
              [Request 1%nat None; Tick; Request 2%nat (Some false);
               Scrolled 40; Request 3%nat (Some true)] Hidle)
    as (Hs & _ & Hi).
  split; [exact Hs|]. apply Hi. reflexivity.
Defined.

(** X2. On a page reached from an idle one, a frame either changes nothing
    or issues exactly one [scrollTo], computed from a batch that is not
    empty: 20 pixels above the least position in it; the page is idle after
    it. *)
Theorem frame_scrolls_once_from_nonempty_batch
  (w : page) (acts : list action) (top : element -> Q) :
  idle w ->
  let w' := run_actions acts w in
  animation_frame top w' = w'
  \/ exists k, (k < List.length (items w'))%nat
       /\ scrollTo_calls (animation_frame top w')
          = scrollTo_calls w'
            ++ [position top (scrollY w') (items w') k - 20]
       /\ (forall j, (j < List.length (items w'))%nat ->
             position top (scrollY w') (items w') k
             <= position top (scrollY w') (items w') j)
       /\ idle (animation_frame top w').
Proof.
  intros Hidle. cbn zeta.
  destruct (run_actions_well_batched acts w (or_introl Hidle))
    as [(Hi & Hc & Ha & Hf)|(Hc & Hi & Hs)].
  - left. apply animation_frame_nothing, Hf.
  - destruct (frame_queue (run_actions acts w)) as [|[|n]] eqn:Hf; [| |lia].
    + left. apply animation_frame_nothing, Hf.
    + right.
      destruct (flush_loop_last_least top (scrollY (run_actions acts w))
                  (items (run_actions acts w)) 0 0%nat Hi)
        as (k & Hk & Hr & Hmin & _).
      exists k. split; [exact Hk|].
      rewrite animation_frame_one by exact Hf.
      unfold flush_min. rewrite Hr. cbn [fst scrollTo_calls].
      split; [reflexivity|]. split; [exact Hmin|].
      unfold idle. cbn. repeat split. lia.
Qed.

Lemma frame_scrolls_once_from_nonempty_batch_witness :
  let w := mkPage (Some "app"%string) [] false 0 0 0 [] in
  let acts := [Request 1%nat None; Request 2%nat None; Tick] in
  let top := fun el : element => if Nat.eqb el 1 then 90 else 60 in
  idle w
  /\ animation_frame top (run_actions acts w) <> run_actions acts w
  /\ idle (animation_frame top (run_actions acts w)).
Proof.
  cbn zeta.
  assert (Hidle : idle (mkPage (Some "app"%string) [] false 0 0 0 [])).
  { unfold idle. cbn. repeat split; reflexivity. }
  assert (Hne : animation_frame
                  (fun el : element => if Nat.eqb el 1 then 90 else 60)
                  (run_actions [Request 1%nat None; Request 2%nat None; Tick]
                     (mkPage (Some "app"%string) [] false 0 0 0 []))
                <> run_actions [Request 1%nat None; Request 2%nat None; Tick]
                     (mkPage (Some "app"%string) [] false 0 0 0 [])).
  { cbv. discriminate. }
  split; [exact Hidle|]. split; [exact Hne|].
  destruct (frame_scrolls_once_from_nonempty_batch _
              [Request 1%nat None; Request 2%nat None; Tick]
              (fun el : element => if Nat.eqb el 1 then 90 else 60) Hidle)
    as [Hsame|(k & _ & _ & _ & Hi)].
  - contradiction.
  - exact Hi.
Defined.

(** X3. Requests made after the [tick()] has resolved and before the frame
    join the batch that waits: the one flush takes the least position among
    the requests of both passes. *)
Theorem late_requests_join_the_batch
  (w : page) (reqs1 reqs2 : list (element * option bool))
  (top : element -> Q) :
  idle w ->
  accepted w reqs1 <> [] ->
  let batch := accepted w reqs1 ++ accepted w reqs2 in
  let w' := animation_frame top
              (update_pass reqs2 (tick (update_pass reqs1 w))) in
  idle w'
  /\ exists k, (k < List.length batch)%nat
       /\ scrollTo_calls w'
          = scrollTo_calls w ++ [position top (scrollY w) batch k - 20]
       /\ forall j, (j < List.length batch)%nat ->
            position top (scrollY w) batch k <= position top (scrollY w) batch j.
Proof.
  intros (Hi & Hc & Ha & Hf) Hne. cbn zeta.
  destruct (update_pass_effect reqs1 w)
    as (Hm1 & Hi1 & Hc1 & Ha1 & Hf1 & Hy1 & Hs1).
  rewrite Hi in Hi1. cbn [app] in Hi1.
  rewrite Hc in Hc1, Ha1. rewrite Ha in Ha1. rewrite Hf in Hf1.
  assert (Hlen : Nat.eqb (List.length (accepted w reqs1)) 0 = false).
  { destruct (accepted w reqs1); [congruence|reflexivity]. }
  rewrite Hlen in Hc1, Ha1. cbn in Hc1, Ha1.
  set (w2 := tick (update_pass reqs1 w)).
  assert (Hw2 : gradio_mode w2 = gradio_mode w /\ items w2 = accepted w reqs1
                /\ called w2 = true /\ awaiting_tick w2 = 0%nat
                /\ frame_queue w2 = 1%nat /\ scrollY w2 = scrollY w
                /\ scrollTo_calls w2 = scrollTo_calls w).
  { unfold w2, tick. cbn. rewrite Hf1, Ha1. tauto. }
  destruct Hw2 as (Hm & Hi' & Hc' & Ha' & Hf' & Hy' & Hs').
  destruct (update_pass_effect reqs2 w2)
    as (Hm2 & Hi2 & Hc2 & Ha2 & Hf2 & Hy2 & Hs2).
  rewrite (accepted_mode w2 w reqs2 Hm) in Hi2, Ha2.
  rewrite Hi' in Hi2. rewrite Hc', Ha' in Ha2. cbn in Ha2.
  rewrite Hf' in Hf2. rewrite Hy' in Hy2. rewrite Hs' in Hs2.
  rewrite animation_frame_one by exact Hf2.
  split; [unfold idle; cbn; repeat split; exact Ha2|].
  assert (Hne2 : accepted w reqs1 ++ accepted w reqs2 <> []).
  { destruct (accepted w reqs1); [congruence|discriminate]. }
  destruct (flush_loop_last_least top (scrollY w) _ 0 0%nat Hne2)
    as (k & Hk & Hr & Hmin & _).
  exists k. split; [exact Hk|].
  unfold flush_min. rewrite Hy2, Hi2, Hr, Hs2. cbn [fst scrollTo_calls].
  split; [reflexivity|exact Hmin].
Qed.

Lemma late_requests_join_the_batch_witness :
  let w := mkPage (Some "app"%string) [] false 0 0 0 [] in
  let top := fun el : element => if Nat.eqb el 1 then 90 else 60 in
  idle w /\ accepted w [(1%nat, None)] <> []
  /\ idle (animation_frame top
             (update_pass [(2%nat, None)] (tick (update_pass [(1%nat, None)] w)))).
Proof.
  cbn zeta.
  assert (Hidle : idle (mkPage (Some "app"%string) [] false 0 0 0 [])).
  { unfold idle. cbn. repeat split; reflexivity. }
  assert (Hacc : accepted (mkPage (Some "app"%string) [] false 0 0 0 [])
                   [(1%nat, None)] <> []).
  { vm_compute. discriminate. }
  split; [exact Hidle|]. split; [exact Hacc|].
  exact (proj1 (late_requests_join_the_batch _ [(1%nat, None)] [(2%nat, None)]
                  (fun el : element => if Nat.eqb el 1 then 90 else 60)
                  Hidle Hacc)).
Defined.

(** The position the loop ends on is the same number for a batch and for
    any reordering of it. *)
Lemma least_position_of_permutation (top : element -> Q) (sy : Q)
  (els els' : list element) (k k' : nat) :
  Permutation els els' ->
  (k < List.length els)%nat ->
  (forall j, (j < List.length els')%nat ->
     position top sy els' k' <= position top sy els' j) ->
  position top sy els' k' <= position top sy els k.
Proof.
  intros Hp Hk Hmin.
  assert (Hin : In (nth k els 0%nat) els') .
  { apply (Permutation_in _ Hp), nth_In, Hk. }
  destruct (In_nth _ _ 0%nat Hin) as (j & Hj & Hnth).
  specialize (Hmin j Hj). unfold position, element in *.
  rewrite Hnth in Hmin. exact Hmin.
Qed.

(** X4. The position the flush scrolls to does not depend on the order in
    which the widgets of a batch have asked. *)
Theorem target_independent_of_order (top : element -> Q) (w w' : page) :
  Permutation (items w) (items w') ->
  scrollY w = scrollY w' ->
  items w <> [] ->
  fst (flush_min top w) == fst (flush_min top w').
Proof.
  intros Hp Hy Hne. unfold flush_min. rewrite <- Hy.
  assert (Hne' : items w' <> []).
  { intros H. rewrite H in Hp. apply Permutation_sym, Permutation_nil in Hp.
    contradiction. }
  destruct (flush_loop_last_least top (scrollY w) (items w) 0 0%nat Hne)
    as (k & Hk & Hr & Hmin & _).
  destruct (flush_loop_last_least top (scrollY w) (items w') 0 0%nat Hne')
    as (k' & Hk' & Hr' & Hmin' & _).
  rewrite Hr, Hr'. cbn [fst].
  apply Qle_antisym.
  - apply (least_position_of_permutation top (scrollY w) (items w') (items w));
      [apply Permutation_sym, Hp|exact Hk'|exact Hmin].
  - apply (least_position_of_permutation top (scrollY w) (items w) (items w'));
      [exact Hp|exact Hk|exact Hmin'].
Qed.

Lemma target_independent_of_order_witness :
  let top := fun el : element => if Nat.eqb el 1 then 90 else 60 in
  let w := mkPage None [1%nat; 2%nat; 3%nat] true 0 1 10 [] in
  let w' := mkPage None [3%nat; 1%nat; 2%nat] true 0 1 10 [] in
  Permutation (items w) (items w') /\ scrollY w = scrollY w'
  /\ items w <> []
  /\ fst (flush_min top w) == fst (flush_min top w').
Proof.
  cbn zeta.
  assert (Hp : Permutation [1%nat; 2%nat; 3%nat] [3%nat; 1%nat; 2%nat]).
  { apply Permutation_sym.
    apply (Permutation_cons_app [1%nat; 2%nat] [] 3%nat).
    rewrite app_nil_r. apply Permutation_refl. }
  assert (Hne : [1%nat; 2%nat; 3%nat] <> []) by discriminate.
  split; [exact Hp|]. split; [reflexivity|]. split; [exact Hne|].
  apply (target_independent_of_order _
           (mkPage None [1%nat; 2%nat; 3%nat] true 0 1 10 [])
           (mkPage None [3%nat; 1%nat; 2%nat] true 0 1 10 []));
    [exact Hp|reflexivity|exact Hne].
Defined.

(** The loop reads positions as numbers: equal positions and an equal
    [min[0]] give an equal least position and the same index. *)
Lemma flush_loop_comp (top1 top2 : element -> Q) (sy1 sy2 : Q)
  (els : list element) :
  (forall el, top1 el + sy1 == top2 el + sy2) ->
  forall (i : nat) (m1 m2 : Q) (k : nat),
    m1 == m2 ->
    fst (flush_loop top1 sy1 els i (m1, k))
    == fst (flush_loop top2 sy2 els i (m2, k))
    /\ snd (flush_loop top1 sy1 els i (m1, k))
       = snd (flush_loop top2 sy2 els i (m2, k)).
Proof.
  intros Hpos. induction els as [|el rest IH]; intros i m1 m2 k Hm.
  - cbn. split; [exact Hm|reflexivity].
  - cbn [flush_loop fst].
    assert (Hle : Qle_bool (top1 el + sy1) m1 = Qle_bool (top2 el + sy2) m2).
    { apply Qleb_comp; [apply Hpos|exact Hm]. }
    rewrite Hle.
    destruct (Nat.eqb i 0 || Qle_bool (top2 el + sy2) m2).
    + apply IH, Hpos.
    + apply IH, Hm.
Qed.

(** X5. The flush depends only on where the items stand in the page, that
    is on [top + scrollY]: the same items found at the same page positions,
    under whatever scroll offset, give the same target and the same index. *)
Theorem target_depends_on_page_positions (top1 top2 : element -> Q)
  (w1 w2 : page) :
  items w1 = items w2 ->
  (forall el, top1 el + scrollY w1 == top2 el + scrollY w2) ->
  fst (flush_min top1 w1) == fst (flush_min top2 w2)
  /\ snd (flush_min top1 w1) = snd (flush_min top2 w2).
Proof.
  intros Hi Hpos. unfold flush_min. rewrite Hi.
  apply flush_loop_comp; [exact Hpos|reflexivity].
Qed.

(** The page of the first frame has been scrolled by 40 in the second: every
    [top] is 40 less. *)
Lemma target_depends_on_page_positions_witness :
  let top1 := fun el : element => if Nat.eqb el 1 then 90 else 60 in
  let top2 := fun el : element => if Nat.eqb el 1 then 50 else 20 in
  let w1 := mkPage None [1%nat; 2%nat] true 0 1 0 [] in
  let w2 := mkPage None [1%nat; 2%nat] true 0 1 40 [] in
  items w1 = items w2
  /\ (forall el, top1 el + scrollY w1 == top2 el + scrollY w2)
  /\ fst (flush_min top1 w1) == fst (flush_min top2 w2).
Proof.
  cbn zeta.
  assert (Hpos : forall el : element,
             (if Nat.eqb el 1 then 90 else 60) + 0
             == (if Nat.eqb el 1 then 50 else 20) + 40).
  { intros el. destruct (Nat.eqb el 1); reflexivity. }
  split; [reflexivity|]. split; [exact Hpos|].
  exact (proj1 (target_depends_on_page_positions
                  (fun el : element => if Nat.eqb el 1 then 90 else 60)
                  (fun el : element => if Nat.eqb el 1 then 50 else 20)
                  (mkPage None [1%nat; 2%nat] true 0 1 0 [])
                  (mkPage None [1%nat; 2%nat] true 0 1 40 [])
                  eq_refl Hpos)).
Defined.

(** X6. On an "app" page every call is accepted, whatever [enable]; on a
    page that is not "website" a call with [enable] [true] is accepted. An
    accepted call adds its element at the end of the items, sets [called],
    and issues no scroll itself. *)
Theorem accepted_call_registers (el : element) (enable : option bool)
  (w : page) :
  gradio_mode w = Some "app"%string
  \/ (gradio_mode w <> Some "website"%string /\ enable = Some true) ->
  let w' := scroll_into_view el enable w in
  items w' = items w ++ [el]
  /\ called w' = true
  /\ awaiting_tick w' = (if called w then awaiting_tick w
                         else S (awaiting_tick w))
  /\ scrollTo_calls w' = scrollTo_calls w
  /\ frame_queue w' = frame_queue w.
Proof.
  intros H. cbn zeta.
  assert (Hg : guard w enable = false).
  { unfold guard. destruct H as [H|[Hw He]].
    - rewrite H. reflexivity.
    - rewrite (mode_is_other _ _ Hw), He. cbn.
      apply andb_false_r. }
  unfold scroll_into_view. rewrite Hg.
  destruct (called w) eqn:Hc; cbn; rewrite ?Hc; repeat split.
Qed.

Lemma accepted_call_registers_witness :
  let w := mkPage (Some "app"%string) [4%nat] true 1 0 0 [] in
  (gradio_mode w = Some "app"%string
   \/ (gradio_mode w <> Some "website"%string /\ Some false = Some true))
  /\ items (scroll_into_view 7%nat (Some false) w) = [4%nat; 7%nat].
Proof.
  cbn zeta. split; [left; reflexivity|].
  exact (proj1 (accepted_call_registers 7%nat (Some false)
                  (mkPage (Some "app"%string) [4%nat] true 1 0 0 [])
                  (or_introl eq_refl))).
Defined.

End ScrollFacts.

(** ** Printing *)

(** [toFixed1] reads its argument as a number: equal rationals print the
    same. *)
Lemma toFixed1_comp (x y : Q) : x == y -> toFixed1 x = toFixed1 y.
Proof.
  intros H. unfold toFixed1.
  assert (Hle : Qle_bool 0 x = Qle_bool 0 y).
  { destruct (Qle_bool 0 x) eqn:Hx, (Qle_bool 0 y) eqn:Hy; try reflexivity.
    - apply Qle_bool_iff in Hx. rewrite H in Hx. apply Qle_bool_iff in Hx.
      congruence.
    - apply Qle_bool_iff in Hy. rewrite <- H in Hy. apply Qle_bool_iff in Hy.
      congruence. }
  rewrite Hle.
  assert (Hfl : Qfloor ((if negb (Qle_bool 0 y) then - x else x) * 10 + (1 # 2))
                = Qfloor ((if negb (Qle_bool 0 y) then - y else y) * 10 + (1 # 2))).
  { apply Qfloor_comp. destruct (negb (Qle_bool 0 y)); rewrite H; reflexivity. }
  rewrite Hfl. reflexivity.
Qed.

Example toFixed1_samples :
  toFixed1 7 = "7.0"%string /\ toFixed1 0 = "0.0"%string
  /\ toFixed1 (1016 # 1000) = "1.0"%string
  /\ toFixed1 (25 # 100) = "0.3"%string
  /\ toFixed1 (- (123456 # 1000)) = "-123.5"%string.
Proof. repeat split; reflexivity. Qed.

(** ** The timer *)

Module TimerFacts.
Import Timer.

Lemma iter_run_callback (now : Q) (n : nat) :
  forall s,
    Nat.iter (S n) (run_callback now) s
    = ticked now s (if _timer s then S n + frames s else frames s).
Proof.
  induction n as [|n IH]; intros s.
  - cbn. unfold run_callback, run, ticked. cbn.
    destruct (_timer s); reflexivity.
  - change (Nat.iter (S (S n)) (run_callback now) s)
      with (run_callback now (Nat.iter (S n) (run_callback now) s)).
    rewrite IH. unfold run_callback, run, ticked. cbn.
    destruct (_timer s); reflexivity.
Qed.

(** A frame with no callback queued changes nothing; with some, the elapsed
    time is read once, and the callbacks are queued again while the timer
    runs. *)
Lemma animation_frame_idle (now : Q) (s : tracker) :
  frames s = 0%nat -> animation_frame now s = s.
Proof.
  intros H. unfold animation_frame. rewrite H. destruct s; cbn in *.
  subst. reflexivity.
Qed.

Lemma animation_frame_ticks (now : Q) (s : tracker) (n : nat) :
  frames s = S n ->
  animation_frame now s = ticked now s (if _timer s then S n else 0%nat).
Proof.
  intros H. unfold animation_frame. rewrite H, iter_run_callback.
  cbn [_timer frames eta queue status timer_start old_eta formatted_eta].
  unfold ticked. cbn. rewrite Nat.add_0_r. reflexivity.
Qed.

(** Only the eta statement writes [old_eta]. *)
Lemma old_eta_animation_frame (now : Q) (s : tracker) :
  old_eta (animation_frame now s) = old_eta s.
Proof.
  destruct (frames s) as [|n] eqn:Hf.
  - rewrite animation_frame_idle by exact Hf. reflexivity.
  - rewrite (animation_frame_ticks now s n Hf). reflexivity.
Qed.

Lemma old_eta_stop_timer (s : tracker) : old_eta (stop_timer s) = old_eta s.
Proof. unfold stop_timer. cbn. destruct (_timer s); reflexivity. Qed.

Lemma old_eta_status_block (now : Q) (s : tracker) :
  old_eta (status_block now s) = old_eta s.
Proof.
  unfold status_block. destruct (is_pending (status s)).
  - reflexivity.
  - apply old_eta_stop_timer.
Qed.

Lemma old_eta_eta_block (now : Q) (s : tracker) :
  old_eta s <> None -> old_eta (eta_block now s) <> None.
Proof.
  intros H. unfold eta_block.
  destruct (eta s) as [e|]; [destruct (queue s)|destruct (old_eta s)];
    cbn; congruence.
Qed.

Lemma old_eta_step (now : Q) (ev : event) (s : tracker) :
  old_eta s <> None -> old_eta (step now ev s) <> None.
Proof.
  intros H. destruct ev as [st|e|q| | |]; cbn [step].
  - unfold set_status. rewrite old_eta_status_block. exact H.
  - unfold set_eta. apply old_eta_eta_block. exact H.
  - unfold set_queue. apply old_eta_eta_block. exact H.
  - apply old_eta_eta_block. exact H.
  - rewrite old_eta_animation_frame. exact H.
  - unfold onDestroy. destruct (_timer s); [|exact H].
    rewrite old_eta_stop_timer. exact H.
Qed.

Lemma old_eta_play (h : history) :
  forall s, old_eta s <> None -> old_eta (play h s) <> None.
Proof.
  induction h as [|[t ev] h IH]; intros s H.
  - exact H.
  - cbn. apply IH, old_eta_step, H.
Qed.

(** A supplied eta is kept as the last known one. *)
Lemma old_eta_supplied (e : Q) (now : Q) (s : tracker) :
  old_eta (set_eta (Some e) now s) = eta (set_eta (Some e) now s)
  /\ old_eta (set_eta (Some e) now s) <> None.
Proof.
  unfold set_eta, eta_block. cbn. destruct (queue s); cbn; split;
    congruence.
Qed.

Lemma timed_stop_timer (t : Q) (s : tracker) :
  timer_start s <= t -> timed t (stop_timer s).
Proof.
  intros H. unfold stop_timer, timed. cbn.
  destruct (_timer s); cbn; split; (exact H || lra).
Qed.

Lemma timed_eta_block (t now : Q) (s : tracker) :
  timed t s -> timed t (eta_block now s).
Proof.
  unfold timed, eta_block.
  destruct (eta s) as [e|]; [destruct (queue s)|destruct (old_eta s)];
    cbn; tauto.
Qed.

Lemma timed_step (t t' : Q) (ev : event) (s : tracker) :
  timed t s -> t <= t' -> timed t' (step t' ev s).
Proof.
  intros [Hs Hd] Ht.
  assert (Hs' : timer_start s <= t') by lra.
  destruct ev as [st|e|q| | |]; cbn [step].
  - unfold set_status, status_block. cbn [status].
    destruct (is_pending st).
    + unfold timed. cbn. lra.
    + apply timed_stop_timer. exact Hs'.
  - unfold set_eta. apply timed_eta_block. split; assumption.
  - unfold set_queue. apply timed_eta_block. split; assumption.
  - apply timed_eta_block. split; assumption.
  - destruct (frames s) as [|n] eqn:Hf.
    + rewrite animation_frame_idle by exact Hf. split; assumption.
    + rewrite (animation_frame_ticks t' s n Hf). unfold timed, ticked. cbn.
      split; [exact Hs'|].
      apply Qle_shift_div_l; lra.
  - unfold onDestroy. destruct (_timer s).
    + apply timed_stop_timer. exact Hs'.
    + split; assumption.
Qed.

Lemma timed_play (h : history) :
  forall t s, timed t s -> monotonic t h -> exists t', timed t' (play h s).
Proof.
  induction h as [|[t1 ev] h IH]; intros t s Hs Hm.
  - exists t. exact Hs.
  - cbn in Hm. destruct Hm as [Ht Hm]. cbn.
    apply (IH t1); [|exact Hm].
    apply (timed_step t); assumption.
Qed.

Lemma reachable_elapsed_nonneg (s : tracker) :
  reachable s -> 0 <= timer_diff s.
Proof.
  intros (e0 & q0 & st0 & h & Hm & ->).
  destruct (timed_play h 0 (initial e0 q0 st0)) as [t' [_ Hd]].
  - unfold timed. cbn. lra.
  - exact Hm.
  - exact Hd.
Qed.

(** C2. With the queue on, a supplied [eta] becomes the time since the start
    plus the supplied value, and that is kept as [old_eta] and printed; a
    null [eta] becomes [old_eta]. So [eta] 5 supplied 2 seconds after the
    start shows 7, and a null [eta] supplied after it still shows 7. *)
Theorem eta_projected_and_carried (s : tracker) (e now later : Q) :
  let s1 := set_eta (Some e) now s in
  let s2 := set_eta None later s1 in
  let projected := (now - timer_start s) / 1000 + e in
  (eta (set_eta None now s) = old_eta s
   /\ old_eta (set_eta None now s) = old_eta s)
  /\ (queue s = false -> eta s1 = Some e /\ old_eta s1 = Some e)
  /\ (queue s = true ->
      (eta s1 = Some projected /\ old_eta s1 = Some projected
       /\ formatted_eta s1 = Some (toFixed1 projected))
      /\ (eta s2 = Some projected /\ old_eta s2 = Some projected
          /\ formatted_eta s2 = Some (toFixed1 projected))
      /\ (e == 5 -> now == timer_start s + 2000 ->
          projected == 7
          /\ formatted_eta s1 = Some "7.0"%string
          /\ formatted_eta s2 = Some "7.0"%string)).
Proof.
  cbn zeta.
  unfold set_eta, eta_block. cbn [eta queue old_eta timer_start status _timer
    timer_diff formatted_eta frames].
  split; [|split].
  - destruct (old_eta s); split; reflexivity.
  - intros ->. split; reflexivity.
  - intros ->. cbn [eta queue old_eta timer_start status _timer
      timer_diff formatted_eta frames].
    split; [repeat split|]. split; [repeat split|].
    intros He Hn.
    assert (H7 : (now - timer_start s) / 1000 + e == 7).
    { rewrite He, Hn. field. }
    split; [exact H7|].
    rewrite (toFixed1_comp _ 7 H7). split; reflexivity.
Qed.

(** The timer starts at 500 ms with the queue on; [eta] 5 comes at 2500 ms
    and a null [eta] at 2600 ms. *)
Lemma eta_projected_and_carried_witness :
  let s := set_status pending 500 (initial None true pending) in
  queue s = true
  /\ eta (set_eta (Some 5) 2500 s) = Some ((2500 - 500) / 1000 + 5)
  /\ formatted_eta (set_eta None 2600 (set_eta (Some 5) 2500 s))
     = Some "7.0"%string.
Proof.
  cbn zeta. split; [reflexivity|].
  destruct (eta_projected_and_carried
              (set_status pending 500 (initial None true pending))
              5 2500 2600)
    as (_ & _ & Hq).
  destruct (Hq eq_refl) as ((He1 & _) & _ & H7).
  split; [exact He1|].
  apply H7.
  - reflexivity.
  - reflexivity.
Defined.

(** C4. When the status becomes anything other than [pending] the timer
    stops: the elapsed time is 0 and prints as 0.0, [_timer] is off, the
    callbacks already queued run in the next frame and queue nothing, so that
    no later frame changes the tracker, and [old_eta] is what it was, also
    after the next [pending]. *)
Theorem leaving_pending_stops_timer (s : tracker) (st : status_t) (now : Q) :
  st <> pending ->
  let s' := set_status st now s in
  timer_diff s' = 0
  /\ formatted_timer s' = "0.0"%string
  /\ _timer s' = false
  /\ (forall t, frames (animation_frame t s') = 0%nat)
  /\ (forall t t', animation_frame t' (animation_frame t s')
                   = animation_frame t s')
  /\ old_eta s' = old_eta s
  /\ eta s' = eta s
  /\ (forall t, old_eta (set_status pending t s') = old_eta s).
Proof.
  intros Hst. cbn zeta.
  assert (Hs' : set_status st now s
                = mkTracker (eta s) (queue s) st false (timer_start s) 0
                            (old_eta s) (formatted_eta s) (frames s)).
  { unfold set_status, status_block. cbn [status].
    destruct st; [|congruence|]; unfold stop_timer; cbn;
      destruct (_timer s); reflexivity. }
  rewrite Hs'. cbn [timer_diff _timer old_eta eta].
  assert (Hfr : forall t,
             frames (animation_frame t
               (mkTracker (eta s) (queue s) st false (timer_start s) 0
                          (old_eta s) (formatted_eta s) (frames s))) = 0%nat).
  { intros t. destruct (frames s) as [|n] eqn:Hf.
    - rewrite animation_frame_idle by reflexivity. reflexivity.
    - rewrite animation_frame_ticks with (n := n) by reflexivity.
      reflexivity. }
  repeat split; try reflexivity.
  - exact Hfr.
  - intros t t'. apply animation_frame_idle, Hfr.
Qed.

(** A running tracker whose status becomes [complete] at 2500 ms. *)
Lemma leaving_pending_stops_timer_witness :
  let s := play [(0, Status pending); (16, Eta (Some 3)); (2000, Frame)]
             (initial None false pending) in
  complete <> pending
  /\ timer_diff s = (2000 - 0) / 1000
  /\ timer_diff (set_status complete 2500 s) = 0
  /\ _timer (set_status complete 2500 s) = false
  /\ old_eta (set_status complete 2500 s) = Some 3.
Proof.
  cbn zeta.
  assert (Hne : complete <> pending) by discriminate.
  split; [exact Hne|]. split; [reflexivity|].
  destruct (leaving_pending_stops_timer
              (play [(0, Status pending); (16, Eta (Some 3)); (2000, Frame)]
                 (initial None false pending)) complete 2500 Hne)
    as (Hd & _ & Ht & _ & _ & Ho & _).
  split; [exact Hd|]. split; [exact Ht|]. rewrite Ho. reflexivity.
Defined.

(** C6, the code at a teardown while the timer runs: the hook stops the timer
    at 1000 ms and sets the elapsed time to 0; the callback queued before it
    runs in the frame at 1016 ms and writes the elapsed time again; no
    callback is queued after it. *)
Theorem frame_after_teardown_writes_elapsed :
  let s1 := set_status pending 0 (initial None false pending) in
  let s2 := onDestroy s1 in
  let s3 := animation_frame 1016 s2 in
  _timer s1 = true /\ frames s1 = 1%nat
  /\ _timer s2 = false /\ timer_diff s2 = 0 /\ frames s2 = 1%nat
  /\ timer_diff s3 = (1016 - 0) / 1000
  /\ ~ timer_diff s3 == timer_diff s2
  /\ frames s3 = 0%nat.
Proof.
  cbn zeta. repeat split. cbn. unfold Qeq. simpl. lia.
Qed.

(** The same at any teardown of a running timer: the frame after it, at a
    time later than the start, writes an elapsed time that is not the 0 the
    hook has left. *)
Lemma frame_after_teardown_general (s : tracker) (t : Q) :
  _timer s = true -> frames s <> 0%nat -> timer_start s < t ->
  timer_diff (onDestroy s) = 0
  /\ 0 < timer_diff (animation_frame t (onDestroy s)).
Proof.
  intros Ht Hf Hlt. unfold onDestroy, stop_timer. rewrite Ht.
  cbn [_timer negb timer_diff eta queue status timer_start old_eta
       formatted_eta frames].
  split; [reflexivity|].
  destruct (frames s) as [|n] eqn:Hn; [congruence|].
  rewrite animation_frame_ticks with (n := n) by reflexivity. cbn.
  apply Qlt_shift_div_l; lra.
Qed.

(** C7. Once an [eta] that is not null has been supplied, [old_eta] is not
    null after any further events, stops and starts among them; and from any
    state where [old_eta] is not null it stays so. *)
Theorem old_eta_never_regresses (s : tracker) (h : history) :
  (forall e now, old_eta (play h (set_eta (Some e) now s)) <> None)
  /\ (old_eta s <> None -> old_eta (play h s) <> None).
Proof.
  split.
  - intros e now. apply old_eta_play, old_eta_supplied.
  - apply old_eta_play.
Qed.

(** An [eta] is supplied, then the timer is stopped and started again and a
    null [eta] comes. *)
Lemma old_eta_never_regresses_witness :
  let s := set_eta (Some 5) 100 (initial None false pending) in
  let h := [(200, Status complete); (300, Frame); (400, Status pending);
            (500, Eta None); (600, Frame)] in
  old_eta s <> None /\ old_eta (play h s) <> None.
Proof.
  cbn zeta.
  assert (H0 : old_eta (set_eta (Some 5) 100 (initial None false pending))
               <> None) by (cbn; discriminate).
  split; [exact H0|].
  apply (old_eta_never_regresses _ _). exact H0.
Defined.

(** *** Further properties of the timer *)

Lemma play_app (h1 h2 : history) (s : tracker) :
  play (h1 ++ h2) s = play h2 (play h1 s).
Proof. unfold play. apply fold_left_app. Qed.

Lemma Math_min_bounds (a b : Q) : Math_min a b <= a /\ Math_min a b <= b.
Proof.
  unfold Math_min. destruct (Qle_bool a b) eqn:H.
  - apply Qle_bool_iff in H. split; lra.
  - assert (b < a).
    { apply Qnot_le_lt. intro H'. apply Qle_bool_iff in H'. congruence. }
    split; lra.
Qed.

Lemma Math_min_cases (a b : Q) :
  (a <= b /\ Math_min a b = a) \/ (b < a /\ Math_min a b = b).
Proof.
  unfold Math_min. destruct (Qle_bool a b) eqn:H.
  - left. apply Qle_bool_iff in H. tauto.
  - right. split; [|reflexivity].
    apply Qnot_le_lt. intro H'. apply Qle_bool_iff in H'. congruence.
Qed.

(** When there is a progress, [eta] is positive and the elapsed time is not
    zero. *)
Lemma progress_some (s : tracker) (p : Q) :
  progress s = Some p ->
  exists e, eta s = Some e /\ 0 < e /\ ~ timer_diff s == 0
            /\ p = Math_min (timer_diff s / e) 1.
Proof.
  unfold progress. destruct (eta s) as [e|]; [|discriminate].
  destruct (Qle_bool e 0) eqn:He; [discriminate|].
  destruct (Qeq_bool (timer_diff s) 0) eqn:Hd; [discriminate|].
  cbn [orb]. intros [= <-]. exists e. split; [reflexivity|].
  split; [|split; [|reflexivity]].
  - apply Qnot_le_lt. intro H. apply Qle_bool_iff in H. congruence.
  - intro H. apply Qeq_bool_iff in H. congruence.
Qed.

(** X8. With a positive [eta], the progress grows with the elapsed time, and
    is 1 from the moment the elapsed time has reached [eta]. *)
Theorem progress_grows_and_saturates (s1 s2 : tracker) (e : Q) :
  eta s1 = Some e -> eta s2 = Some e -> 0 < e ->
  0 < timer_diff s1 -> timer_diff s1 <= timer_diff s2 ->
  exists p1 p2, progress s1 = Some p1 /\ progress s2 = Some p2
    /\ p1 <= p2
    /\ (e <= timer_diff s2 -> p2 == 1).
Proof.
  intros He1 He2 He Hd1 Hd12.
  assert (Hle : Qle_bool e 0 = false).
  { destruct (Qle_bool e 0) eqn:H; [|reflexivity].
    apply Qle_bool_iff in H. lra. }
  assert (Hz : forall d, 0 < d -> Qeq_bool d 0 = false).
  { intros d Hd. destruct (Qeq_bool d 0) eqn:H; [|reflexivity].
    apply Qeq_bool_iff in H. lra. }
  unfold progress. rewrite He1, He2, Hle, (Hz _ Hd1), (Hz (timer_diff s2))
    by lra. cbn [orb].
  eexists. eexists. split; [reflexivity|]. split; [reflexivity|].
  assert (Hq : timer_diff s1 / e <= timer_diff s2 / e).
  { apply Qmult_le_compat_r; [exact Hd12|].
    apply Qlt_le_weak, Qinv_lt_0_compat, He. }
  split.
  - destruct (Math_min_cases (timer_diff s1 / e) 1) as [[H1 ->]|[H1 ->]];
      destruct (Math_min_cases (timer_diff s2 / e) 1) as [[H2 ->]|[H2 ->]];
      lra.
  - intros Hfull.
    assert (H1 : 1 <= timer_diff s2 / e).
    { apply Qle_shift_div_l; lra. }
    destruct (Math_min_cases (timer_diff s2 / e) 1) as [[H2 ->]|[H2 ->]];
      lra.
Qed.

Lemma progress_grows_and_saturates_witness :
  let s1 := play [(0, Status pending); (10, Eta (Some 2)); (1000, Frame)]
              (initial None false pending) in
  let s2 := play [(3000, Frame)] s1 in
  eta s1 = Some 2 /\ 0 < timer_diff s1 /\ timer_diff s1 <= timer_diff s2
  /\ exists p1 p2, progress s1 = Some p1 /\ progress s2 = Some p2
       /\ p1 <= p2.
Proof.
  cbn zeta.
  split; [reflexivity|]. split; [reflexivity|].
  assert (Hle : timer_diff
                  (play [(0, Status pending); (10, Eta (Some 2)); (1000, Frame)]
                     (initial None false pending))
                <= timer_diff
                     (play [(3000, Frame)]
                        (play [(0, Status pending); (10, Eta (Some 2));
                               (1000, Frame)] (initial None false pending)))).
  { unfold Qle. simpl. lia. }
  split; [exact Hle|].
  destruct (progress_grows_and_saturates
              (play [(0, Status pending); (10, Eta (Some 2)); (1000, Frame)]
                 (initial None false pending))
              (play [(3000, Frame)]
                 (play [(0, Status pending); (10, Eta (Some 2)); (1000, Frame)]
                    (initial None false pending)))
              2 eq_refl eq_refl eq_refl eq_refl Hle)
    as (p1 & p2 & H1 & H2 & H12 & _).
  exists p1, p2. split; [exact H1|]. split; [exact H2|exact H12].
Defined.

(** A timer that runs has a callback queued. *)
Lemma running_has_callback_step (now : Q) (ev : event) (s : tracker) :
  (_timer s = true -> frames s <> 0%nat) ->
  _timer (step now ev s) = true -> frames (step now ev s) <> 0%nat.
Proof.
  intros Hinv. destruct ev as [st|e|q| | |]; cbn [step].
  - unfold set_status, status_block. cbn [status].
    destruct (is_pending st).
    + intros _. cbn. discriminate.
    + unfold stop_timer. cbn. destruct (_timer s); cbn; discriminate.
  - unfold set_eta, eta_block. cbn.
    destruct e as [e|]; [destruct (queue s)|destruct (old_eta s)]; cbn;
      exact Hinv.
  - unfold set_queue, eta_block. cbn.
    destruct (eta s) as [e|]; [destruct q|destruct (old_eta s)]; cbn;
      exact Hinv.
  - unfold eta_block.
    destruct (eta s) as [e|]; [destruct (queue s)|destruct (old_eta s)]; cbn;
      exact Hinv.
  - destruct (frames s) as [|n] eqn:Hf.
    + rewrite animation_frame_idle by exact Hf. rewrite Hf. exact Hinv.
    + rewrite (animation_frame_ticks now s n Hf). cbn.
      intros ->. discriminate.
  - unfold onDestroy. destruct (_timer s) eqn:Ht; [|congruence].
    unfold stop_timer. cbn. rewrite Ht. cbn. discriminate.
Qed.

Lemma running_has_callback_play (h : history) :
  forall s, (_timer s = true -> frames s <> 0%nat) ->
    _timer (play h s) = true -> frames (play h s) <> 0%nat.
Proof.
  induction h as [|[t ev] h IH]; intros s H0; [exact H0|].
  cbn. apply IH, running_has_callback_step, H0.
Qed.

(** X9. In every state the tracker can be in, a timer that runs has at
    least one callback queued: the next frame writes the time since the
    start as the elapsed time and leaves as many callbacks queued. *)
Theorem running_timer_keeps_ticking (s : tracker) (t : Q) :
  reachable s -> _timer s = true ->
  (1 <= frames s)%nat
  /\ timer_diff (animation_frame t s) = (t - timer_start s) / 1000
  /\ frames (animation_frame t s) = frames s
  /\ _timer (animation_frame t s) = true.
Proof.
  intros (e0 & q0 & st0 & h & _ & ->) Ht.
  assert (Hf : frames (play h (initial e0 q0 st0)) <> 0%nat).
  { apply running_has_callback_play; [cbn; discriminate|exact Ht]. }
  destruct (frames (play h (initial e0 q0 st0))) as [|n] eqn:Hn;
    [congruence|].
  split; [lia|].
  rewrite (animation_frame_ticks t _ n Hn), Ht. cbn. repeat split.
  exact Ht.
Qed.

Lemma running_timer_keeps_ticking_witness :
  let s := play [(0, Status pending); (16, Frame); (20, Eta None);
                 (32, Frame)] (initial None true pending) in
  reachable s /\ _timer s = true
  /\ timer_diff (animation_frame 48 s) = (48 - timer_start s) / 1000.
Proof.
  cbn zeta.
  assert (Hr : reachable
                 (play [(0, Status pending); (16, Frame); (20, Eta None);
                        (32, Frame)] (initial None true pending))).
  { exists None, true, pending,
      [(0, Status pending); (16, Frame); (20, Eta None); (32, Frame)].
    split; [|reflexivity]. cbn. repeat split; unfold Qle; simpl; lia. }
  split; [exact Hr|]. split; [reflexivity|].
  exact (proj1 (proj2 (running_timer_keeps_ticking _ 48 Hr eq_refl))).
Defined.

(** X10. [start_timer] has no guard: every [pending] that comes while the
    timer runs queues one more callback, and a frame keeps them all
    queued. *)
Theorem every_start_queues_a_callback (ts : list Q) (s : tracker) (t : Q) :
  ts <> [] ->
  let s' := play (map (fun t' => (t', Status pending)) ts) s in
  frames s' = (List.length ts + frames s)%nat
  /\ _timer s' = true
  /\ frames (animation_frame t s') = (List.length ts + frames s)%nat.
Proof.
  intros Hne. cbn zeta.
  assert (H : forall ts s,
             frames (play (map (fun t' => (t', Status pending)) ts) s)
             = (List.length ts + frames s)%nat
             /\ (ts <> [] ->
                 _timer (play (map (fun t' => (t', Status pending)) ts) s)
                 = true)).
  { clear. induction ts as [|t1 ts IH]; intros s.
    - cbn. split; [reflexivity|congruence].
    - cbn [map play fold_left fst snd step].
      fold (play (map (fun t' => (t', Status pending)) ts)
              (set_status pending t1 s)).
      destruct (IH (set_status pending t1 s)) as [Hf Ht].
      rewrite Hf. cbn. split; [lia|]. intros _.
      destruct ts as [|t2 ts]; [reflexivity|]. apply Ht. discriminate. }
  destruct (H ts s) as [Hf Ht]. specialize (Ht Hne).
  split; [exact Hf|]. split; [exact Ht|].
  destruct ts as [|t1 ts']; [congruence|].
  rewrite animation_frame_ticks
    with (n := (List.length ts' + frames s)%nat) by exact Hf.
  rewrite Ht. reflexivity.
Qed.

Lemma every_start_queues_a_callback_witness :
  let s := initial None false pending in
  [0; 500; 900] <> []
  /\ frames (animation_frame 1000
               (play (map (fun t' => (t', Status pending)) [0; 500; 900]) s))
     = 3%nat.
Proof.
  cbn zeta.
  assert (Hne : [0; 500; 900] <> []) by discriminate.
  split; [exact Hne|].
  exact (proj2 (proj2 (every_start_queues_a_callback [0; 500; 900]
                         (initial None false pending) 1000 Hne))).
Defined.

(** X11. After the hook of [onDestroy], whatever the state it ran in, the
    callbacks queued run in one frame and queue nothing: a second frame
    changes nothing. The hook run twice is the hook run once. *)
Theorem teardown_leaves_one_frame (s : tracker) (t t' : Q) :
  frames (animation_frame t (onDestroy s)) = 0%nat
  /\ animation_frame t' (animation_frame t (onDestroy s))
     = animation_frame t (onDestroy s)
  /\ onDestroy (onDestroy s) = onDestroy s.
Proof.
  assert (Ht : _timer (onDestroy s) = false).
  { unfold onDestroy, stop_timer. destruct (_timer s) eqn:H; cbn;
      rewrite ?H; reflexivity. }
  assert (Hf : frames (animation_frame t (onDestroy s)) = 0%nat).
  { destruct (frames (onDestroy s)) as [|n] eqn:Hn.
    - rewrite animation_frame_idle by exact Hn. exact Hn.
    - rewrite (animation_frame_ticks t _ n Hn), Ht. reflexivity. }
  split; [exact Hf|]. split; [apply animation_frame_idle, Hf|].
  unfold onDestroy at 1. rewrite Ht. reflexivity.
Qed.

(** The eta statement keeps the printed eta in step with [old_eta], and
    leaves [eta] equal to [old_eta]. *)
Lemma eta_block_display (now : Q) (s : tracker) :
  formatted_eta s = option_map toFixed1 (old_eta s) ->
  formatted_eta (eta_block now s)
  = option_map toFixed1 (old_eta (eta_block now s))
  /\ eta (eta_block now s) = old_eta (eta_block now s).
Proof.
  intros HI. unfold eta_block.
  destruct (eta s) as [e|]; [destruct (queue s)|destruct (old_eta s)];
    cbn; split; try reflexivity; exact HI.
Qed.

(** The events that do not run the eta statement leave [eta], [old_eta],
    [formatted_eta] and [queue] alone; those that run it leave the timer
    alone. *)
Lemma timer_events_keep_eta (now : Q) (ev : event) (s : tracker) :
  runs_eta_block ev = false ->
  eta (step now ev s) = eta s /\ old_eta (step now ev s) = old_eta s
  /\ formatted_eta (step now ev s) = formatted_eta s
  /\ queue (step now ev s) = queue s.
Proof.
  destruct ev as [st|e|q| | |]; cbn [runs_eta_block step]; try discriminate;
    intros _.
  - unfold set_status, status_block. cbn [status].
    destruct (is_pending st); [repeat split|].
    unfold stop_timer. cbn. destruct (_timer s); repeat split.
  - destruct (frames s) as [|n] eqn:Hf.
    + rewrite animation_frame_idle by exact Hf. repeat split.
    + rewrite (animation_frame_ticks now s n Hf). repeat split.
  - unfold onDestroy, stop_timer. destruct (_timer s) eqn:Ht; cbn;
      rewrite ?Ht; repeat split.
Qed.

Lemma eta_events_keep_timer (now : Q) (ev : event) (s : tracker) :
  runs_eta_block ev = true ->
  _timer (step now ev s) = _timer s
  /\ timer_start (step now ev s) = timer_start s
  /\ timer_diff (step now ev s) = timer_diff s
  /\ frames (step now ev s) = frames s
  /\ status (step now ev s) = status s.
Proof.
  destruct ev as [st|e|q| | |]; cbn [runs_eta_block step]; try discriminate;
    intros _.
  - unfold set_eta, eta_block. cbn.
    destruct e as [e|]; [destruct (queue s)|destruct (old_eta s)];
      repeat split.
  - unfold set_queue, eta_block. cbn.
    destruct (eta s) as [e|]; [destruct q|destruct (old_eta s)];
      repeat split.
  - unfold eta_block.
    destruct (eta s) as [e|]; [destruct (queue s)|destruct (old_eta s)];
      repeat split.
Qed.

Lemma display_step (now : Q) (ev : event) (s : tracker) :
  formatted_eta s = option_map toFixed1 (old_eta s) ->
  formatted_eta (step now ev s) = option_map toFixed1 (old_eta (step now ev s))
  /\ (eta s = old_eta s \/ runs_eta_block ev = true ->
      eta (step now ev s) = old_eta (step now ev s)).
Proof.
  intros HI. destruct (runs_eta_block ev) eqn:Hev.
  - destruct ev as [st|e|q| | |]; try discriminate; cbn [step];
      unfold set_eta, set_queue;
      (split; [|intros _]); apply eta_block_display; exact HI.
  - destruct (timer_events_keep_eta now ev s Hev) as (He & Ho & Hf & _).
    rewrite He, Ho, Hf. split; [exact HI|].
    intros [H|H]; [exact H|discriminate].
Qed.

Lemma display_play (h : history) :
  forall s,
    formatted_eta s = option_map toFixed1 (old_eta s) ->
    formatted_eta (play h s) = option_map toFixed1 (old_eta (play h s))
    /\ (eta s = old_eta s -> eta (play h s) = old_eta (play h s)).
Proof.
  induction h as [|[t ev] h IH]; intros s HI; [tauto|].
  cbn. destruct (display_step t ev s HI) as [HI' HJ'].
  destruct (IH _ HI') as [HI'' HJ'']. split; [exact HI''|].
  intros HJ. apply HJ'', HJ'. left. exact HJ.
Qed.

(** X12. Once the eta statement has run, at every later moment [eta] is
    [old_eta] and [formatted_eta] is the print of [eta]: the text after the
    elapsed time is the current eta to one decimal, and never the print of
    an older one nor of null. An [eta] of 0 is not shown. *)
Theorem shown_eta_is_current (eta0 : option Q) (queue0 : bool)
  (status0 : status_t) (h1 h2 : history) (now : Q) (ev : event) :
  runs_eta_block ev = true ->
  let s := play (h1 ++ (now, ev) :: h2) (initial eta0 queue0 status0) in
  eta s = old_eta s
  /\ formatted_eta s = option_map toFixed1 (eta s)
  /\ timer_text true s
     = (formatted_timer s
        ++ match eta s with
           | Some e => if Qeq_bool e 0 then "" else "/" ++ toFixed1 e
           | None => ""
           end)%string.
Proof.
  intros Hev. cbn zeta. rewrite play_app.
  set (s1 := play h1 (initial eta0 queue0 status0)).
  assert (HI1 : formatted_eta s1 = option_map toFixed1 (old_eta s1)).
  { apply display_play. reflexivity. }
  change (play ((now, ev) :: h2) s1) with (play h2 (step now ev s1)).
  destruct (display_step now ev s1 HI1) as [HI2 HJ2].
  specialize (HJ2 (or_intror Hev)).
  destruct (display_play h2 _ HI2) as [HI HJ]. specialize (HJ HJ2).
  split; [exact HJ|]. rewrite <- HJ in HI. split; [exact HI|].
  unfold timer_text. rewrite HI.
  destruct (eta (play h2 (step now ev s1))); reflexivity.
Qed.

Lemma shown_eta_is_current_witness :
  let s := play ([(0, Status pending)] ++ (500, Eta (Some 3))
                   :: [(1000, Frame); (1500, Eta None); (2000, Status complete)])
             (initial None false pending) in
  runs_eta_block (Eta (Some 3)) = true
  /\ eta s = old_eta s
  /\ formatted_eta s = option_map toFixed1 (eta s).
Proof.
  cbn zeta. split; [reflexivity|].
  destruct (shown_eta_is_current None false pending [(0, Status pending)]
              [(1000, Frame); (1500, Eta None); (2000, Status complete)]
              500 (Eta (Some 3)) eq_refl) as (H1 & H2 & _).
  split; [exact H1|exact H2].
Defined.

(** X13. With the queue off the eta statement is idempotent: run again, at
    whatever time, it changes nothing. *)
Theorem eta_block_idempotent_without_queue (s : tracker) (t1 t2 : Q) :
  queue s = false ->
  eta_block t2 (eta_block t1 s) = eta_block t1 s.
Proof.
  intros Hq. unfold eta_block. rewrite Hq.
  destruct (eta s) as [e|]; [|destruct (old_eta s) as [o|] eqn:Ho];
    cbn; rewrite ?Hq, ?Ho; reflexivity.
Qed.

Lemma eta_block_idempotent_without_queue_witness :
  let s := set_status pending 0 (initial (Some 4) false pending) in
  queue s = false
  /\ eta_block 900 (eta_block 100 s) = eta_block 100 s.
Proof.
  cbn zeta. split; [reflexivity|].
  apply (eta_block_idempotent_without_queue
           (set_status pending 0 (initial (Some 4) false pending)) 100 900).
  reflexivity.
Defined.

(** X14. With the queue on the eta statement is not idempotent: every run
    on an [eta] that is not null adds the time since the start once more,
    so two runs at 1 and 3 seconds after the start turn 5 into 9. *)
Theorem eta_block_adds_elapsed_each_run (s : tracker) (e t1 t2 : Q) :
  queue s = true -> eta s = Some e ->
  eta (eta_block t2 (eta_block t1 s))
  = Some ((t2 - timer_start s) / 1000 + ((t1 - timer_start s) / 1000 + e))
  /\ old_eta (eta_block t2 (eta_block t1 s))
     = eta (eta_block t2 (eta_block t1 s))
  /\ (e == 5 -> t1 == timer_start s + 1000 -> t2 == timer_start s + 3000 ->
      formatted_eta (eta_block t2 (eta_block t1 s)) = Some "9.0"%string).
Proof.
  intros Hq He. unfold eta_block. rewrite Hq, He. cbn. rewrite ?Hq. cbn.
  split; [reflexivity|]. split; [reflexivity|].
  intros H5 H1 H3. f_equal. apply (toFixed1_comp _ 9).
  rewrite H5, H1, H3. field.
Qed.

Lemma eta_block_adds_elapsed_each_run_witness :
  let s := set_eta (Some 5) 0
             (set_status pending 0 (initial None true pending)) in
  queue s = true /\ eta s = Some ((0 - 0) / 1000 + 5)
  /\ eta (eta_block 3000 (eta_block 1000 s))
     = Some ((3000 - 0) / 1000 + ((1000 - 0) / 1000 + ((0 - 0) / 1000 + 5))).
Proof.
  cbn zeta. split; [reflexivity|]. split; [reflexivity|].
  exact (proj1 (eta_block_adds_elapsed_each_run
                  (set_eta (Some 5) 0
                     (set_status pending 0 (initial None true pending)))
                  ((0 - 0) / 1000 + 5) 1000 3000 eq_refl eq_refl)).
Defined.

(** X15. The timer and the eta display do not touch each other: an event
    that runs the eta statement leaves [_timer], [timer_start],
    [timer_diff], the queued callbacks and [status] as they are, and any
    other event leaves [eta], [old_eta], [formatted_eta] and [queue] as they
    are. *)
Theorem timer_and_eta_are_independent (now : Q) (ev : event) (s : tracker) :
  if runs_eta_block ev
  then _timer (step now ev s) = _timer s
       /\ timer_start (step now ev s) = timer_start s
       /\ timer_diff (step now ev s) = timer_diff s
       /\ frames (step now ev s) = frames s
       /\ status (step now ev s) = status s
  else eta (step now ev s) = eta s
       /\ old_eta (step now ev s) = old_eta s
       /\ formatted_eta (step now ev s) = formatted_eta s
       /\ queue (step now ev s) = queue s.
Proof.
  destruct (runs_eta_block ev) eqn:Hev.
  - apply eta_events_keep_timer, Hev.
  - apply timer_events_keep_eta, Hev.
Qed.

(** X17. The text before the timer: [processing] is shown only when
    [queue_position] is 0 and [queue_size] is left out; as soon as
    [queue_size] is given, null included, a position that is not negative
    shows as [queue: position + 1 / size], the position 0 too; a position
    that is null, left out or negative shows nothing. *)
Theorem processing_needs_no_queue_size (pos size : prop_number) :
  (queue_text pos size = Processing <->
   size = js_undefined /\ exists p, pos = js_number p /\ p == 0)
  /\ (forall p, pos = js_number p -> 0 <= p -> size <> js_undefined ->
        queue_text pos size = Queue_of (p + 1) size)
  /\ (pos = js_null \/ pos = js_undefined
      \/ (exists p, pos = js_number p /\ p < 0) ->
      queue_text pos size = No_line).
Proof.
  unfold queue_text. split; [split|split].
  - destruct pos as [| |p]; [destruct size; discriminate
                            |destruct size; discriminate|].
    assert (Hz : Qeq_bool p 0 = true -> Qle_bool 0 p = true).
    { intros H. apply Qeq_bool_iff in H. apply Qle_bool_iff. lra. }
    destruct size; cbn [andb].
    + destruct (Qeq_bool p 0) eqn:H; [|discriminate].
      intros _. split; [reflexivity|]. exists p. split; [reflexivity|].
      apply Qeq_bool_iff, H.
    + destruct (Qle_bool 0 p) eqn:H'; [discriminate|].
      destruct (Qeq_bool p 0) eqn:H; [|discriminate].
      specialize (Hz eq_refl). congruence.
    + destruct (Qle_bool 0 p) eqn:H'; [discriminate|].
      destruct (Qeq_bool p 0) eqn:H; [|discriminate].
      specialize (Hz eq_refl). congruence.
  - intros [-> (p & -> & Hp)]. cbn.
    apply Qeq_bool_iff in Hp. rewrite Hp. reflexivity.
  - intros p -> Hp Hs. apply Qle_bool_iff in Hp. cbn. rewrite Hp.
    destruct size; [congruence|reflexivity|reflexivity].
  - intros [->|[->|(p & -> & Hp)]]; cbn; try reflexivity.
    + destruct size; reflexivity.
    + assert (Hle : Qle_bool 0 p = false).
      { destruct (Qle_bool 0 p) eqn:H; [|reflexivity].
        apply Qle_bool_iff in H. lra. }
      assert (Hz : Qeq_bool p 0 = false).
      { destruct (Qeq_bool p 0) eqn:H; [|reflexivity].
        apply Qeq_bool_iff in H. lra. }
      rewrite Hle, Hz, andb_false_r. reflexivity.
Qed.

Lemma processing_needs_no_queue_size_witness :
  0 <= 0 /\ js_null <> js_undefined
  /\ queue_text (js_number 0) js_null = Queue_of (0 + 1) js_null.
Proof.
  assert (H0 : 0 <= 0) by (unfold Qle; simpl; lia).
  assert (Hn : js_null <> js_undefined) by discriminate.
  split; [exact H0|]. split; [exact Hn|].
  destruct (processing_needs_no_queue_size (js_number 0) js_null)
    as (_ & Hq & _).
  apply (Hq 0 eq_refl H0 Hn).
Defined.

(** X18. The statement that asks for the scroll does nothing while the
    element is not bound, while [scroll_to_output] is off, and on the status
    [error]. Otherwise, when the store has no [autoscroll], the default
    [true] of [enable] applies and the element is registered on every page
    but a "website" one; when the store's [autoscroll] is null or false it
    is registered on an "app" page only. *)
Theorem scroll_statement_cases (el : Scroll.element) (st : status_t)
  (autoscroll : option (option bool)) (w : Scroll.page) :
  scroll_statement None true st autoscroll w = w
  /\ scroll_statement (Some el) false st autoscroll w = w
  /\ scroll_statement (Some el) true error autoscroll w = w
  /\ (st <> error ->
      Scroll.gradio_mode w <> Some "website"%string ->
      Scroll.items (scroll_statement (Some el) true st None w)
      = Scroll.items w ++ [el])
  /\ (st <> error ->
      Scroll.gradio_mode w <> Some "app"%string ->
      autoscroll = Some None \/ autoscroll = Some (Some false) ->
      scroll_statement (Some el) true st autoscroll w = w).
Proof.
  split; [reflexivity|]. split; [reflexivity|]. split; [reflexivity|].
  split.
  - intros Hst Hw. unfold scroll_statement.
    destruct st; [| |congruence]; cbn [andb Scroll.scroll_into_view_default];
      unfold Scroll.scroll_into_view, Scroll.guard;
      rewrite (ScrollFacts.mode_is_other _ _ Hw); cbn;
      rewrite andb_false_r; destruct (Scroll.called w); reflexivity.
  - intros Hst Hw Ha. unfold scroll_statement.
    assert (Hg : forall en, en = None \/ en = Some false ->
                   Scroll.scroll_into_view el en w = w).
    { intros en Hen. unfold Scroll.scroll_into_view, Scroll.guard.
      rewrite (ScrollFacts.mode_is_other _ _ Hw).
      destruct Hen as [->| ->]; cbn; rewrite orb_true_r; reflexivity. }
    destruct st; [| |congruence]; cbn [andb];
      destruct Ha as [->| ->]; cbn [Scroll.scroll_into_view_default];
      apply Hg; tauto.
Qed.

Lemma scroll_statement_cases_witness :
  let w := Scroll.mkPage None [] false 0 0 0 [] in
  complete <> error /\ Scroll.gradio_mode w <> Some "website"%string
  /\ Scroll.items (scroll_statement (Some 5%nat) true complete None w)
     = [5%nat].
Proof.
  cbn zeta.
  assert (Hst : complete <> error) by discriminate.
  assert (Hw : Scroll.gradio_mode (Scroll.mkPage None [] false 0 0 0 [])
               <> Some "website"%string) by discriminate.
  split; [exact Hst|]. split; [exact Hw|].
  destruct (scroll_statement_cases 5%nat complete None
              (Scroll.mkPage None [] false 0 0 0 []))
    as (_ & _ & _ & H & _).
  apply (H Hst Hw).
Defined.

End TimerFacts.

(** ** The component under the compiled schedule *)

Module ComponentFacts.
Import Timer TimerFacts Component.

Lemma changed_number_same (x : Q) : changed_number x x = false.
Proof.
  unfold changed_number.
  assert (H : Qeq_bool x x = true) by (apply Qeq_bool_iff; reflexivity).
  rewrite H. reflexivity.
Qed.

Lemma changed_number_false (x y : Q) : changed_number x y = false -> x == y.
Proof.
  unfold changed_number. intros H. apply Qeq_bool_iff.
  destruct (Qeq_bool x y); [reflexivity|discriminate].
Qed.

Lemma changed_nullable_same (a : option Q) : changed_nullable a a = false.
Proof. destruct a as [x|]; [apply changed_number_same|reflexivity]. Qed.

Lemma changed_nullable_false (a b : option Q) :
  changed_nullable a b = false -> same_number a b.
Proof.
  destruct a as [x|], b as [y|]; cbn; try discriminate.
  - apply changed_number_false.
  - trivial.
Qed.

Lemma same_number_refl (a : option Q) : same_number a a.
Proof. destruct a; cbn; [reflexivity|trivial]. Qed.

Lemma same_number_trans (a b c : option Q) :
  same_number a b -> same_number b c -> same_number a c.
Proof.
  destruct a, b, c; cbn; try tauto. intros H1 H2. rewrite H1. exact H2.
Qed.

(** The expression of the progress statement reads [eta] and the elapsed
    time as numbers. *)
Lemma progress_comp (s s' : tracker) :
  same_number (eta s) (eta s') -> timer_diff s == timer_diff s' ->
  same_number (Timer.progress s) (Timer.progress s').
Proof.
  unfold Timer.progress.
  destruct (eta s) as [e|], (eta s') as [e'|]; cbn; try tauto.
  intros He Hd.
  assert (H1 : Qle_bool e 0 = Qle_bool e' 0).
  { apply Qleb_comp; [exact He|reflexivity]. }
  assert (H2 : Qeq_bool (timer_diff s) 0 = Qeq_bool (timer_diff s') 0).
  { destruct (Qeq_bool (timer_diff s) 0) eqn:Ha,
             (Qeq_bool (timer_diff s') 0) eqn:Hb; try reflexivity.
    - apply Qeq_bool_iff in Ha. rewrite Hd in Ha. apply Qeq_bool_iff in Ha.
      congruence.
    - apply Qeq_bool_iff in Hb. rewrite <- Hd in Hb. apply Qeq_bool_iff in Hb.
      congruence. }
  rewrite H1, H2.
  destruct (Qle_bool e' 0 || Qeq_bool (timer_diff s') 0); cbn; [trivial|].
  assert (Hq : timer_diff s / e == timer_diff s' / e').
  { rewrite He, Hd. reflexivity. }
  destruct (Math_min_cases (timer_diff s / e) 1) as [[Ha ->]|[Ha ->]];
    destruct (Math_min_cases (timer_diff s' / e') 1) as [[Hb ->]|[Hb ->]];
    lra.
Qed.

(** The expression on a state whose elapsed time is not negative. *)
Lemma progress_expression (s : tracker) :
  0 <= timer_diff s ->
  (forall e, eta s = Some e -> 0 < e -> ~ timer_diff s == 0 ->
     exists p, Timer.progress s = Some p
               /\ p == clamp01 (timer_diff s / e))
  /\ (eta s = None -> Timer.progress s = None)
  /\ (forall e, eta s = Some e -> e <= 0 -> Timer.progress s = None)
  /\ (timer_diff s == 0 -> Timer.progress s = None)
  /\ (forall p, Timer.progress s = Some p -> 0 < p /\ p <= 1).
Proof.
  intros Hd. unfold Timer.progress.
  split; [|split; [|split; [|split]]].
  - intros e -> He Hnz.
    assert (Hle : Qle_bool e 0 = false).
    { destruct (Qle_bool e 0) eqn:H; [|reflexivity].
      apply Qle_bool_iff in H. lra. }
    assert (Heq : Qeq_bool (timer_diff s) 0 = false).
    { destruct (Qeq_bool (timer_diff s) 0) eqn:H; [|reflexivity].
      apply Qeq_bool_iff in H. contradiction. }
    rewrite Hle, Heq. cbn [orb]. eexists. split; [reflexivity|].
    assert (Hq : 0 <= timer_diff s / e).
    { apply Qle_shift_div_l; lra. }
    unfold clamp01.
    destruct (Math_min_cases (timer_diff s / e) 1) as [[H1 ->]|[H1 ->]].
    + rewrite (Q.min_l _ _ H1), (Q.max_r _ _ Hq). reflexivity.
    + rewrite Q.min_r, Q.max_r by lra. reflexivity.
  - intros ->. reflexivity.
  - intros e -> He. apply Qle_bool_iff in He. rewrite He. reflexivity.
  - intros Hz. apply Qeq_bool_iff in Hz. rewrite Hz.
    destruct (eta s); [rewrite orb_true_r|]; reflexivity.
  - intros p H. fold (Timer.progress s) in H.
    destruct (progress_some s p H) as (e & _ & He & Hnz & ->).
    assert (Hq : 0 < timer_diff s / e).
    { apply Qlt_shift_div_l; [exact He|].
      destruct (Qle_lt_or_eq _ _ Hd) as [Hlt|Heq]; [lra|].
      exfalso. apply Hnz. symmetry. exact Heq. }
    destruct (Math_min_cases (timer_diff s / e) 1) as [[H1 ->]|[H1 ->]]; lra.
Qed.

(** What the two statements that write the variables leave alone. *)
Lemma eta_block_keeps_timer (now : Q) (s : tracker) :
  timer_diff (eta_block now s) = timer_diff s
  /\ timer_start (eta_block now s) = timer_start s
  /\ status (eta_block now s) = status s
  /\ _timer (eta_block now s) = _timer s
  /\ frames (eta_block now s) = frames s.
Proof.
  unfold eta_block.
  destruct (eta s) as [e|]; [destruct (queue s)|destruct (old_eta s)];
    repeat split.
Qed.

Lemma status_block_keeps_eta (now : Q) (s : tracker) :
  eta (status_block now s) = eta s
  /\ (timer_diff (status_block now s) = 0).
Proof.
  unfold status_block, start_timer, stop_timer.
  destruct (is_pending (status s)); cbn; [split; reflexivity|].
  destruct (_timer s); split; reflexivity.
Qed.

Lemma timed_status_block (t now : Q) (s : tracker) :
  timed t s -> t <= now -> timed now (status_block now s).
Proof.
  intros [Hs Hd] Ht. unfold status_block.
  destruct (is_pending (status s)).
  - unfold timed. cbn. lra.
  - apply timed_stop_timer. lra.
Qed.

(** An update: the variables go through the eta statement and the status
    statement, each run or not. *)
Lemma timed_update (t now : Q) (d : dirty) (w : widget) :
  timed t (vars w) -> t <= now -> timed now (vars (update now d w)).
Proof.
  intros Hw Ht. unfold update. cbn [vars].
  set (s1 := if eta_dirty d || old_eta_dirty d || queue_dirty d
                || timer_start_dirty d
             then eta_block now (vars w) else vars w).
  assert (H1 : timed t s1).
  { unfold s1. destruct (eta_dirty d || old_eta_dirty d || queue_dirty d
                         || timer_start_dirty d);
      [apply timed_eta_block|]; exact Hw. }
  destruct (status_dirty (mark (vars w) s1 d)).
  - apply (timed_status_block t); assumption.
  - destruct H1 as [Hs Hd]. split; [lra|exact Hd].
Qed.

(** The held progress after an update is that of the statement's last
    run. *)
Lemma update_follows (now : Q) (d : dirty) (w : widget) :
  0 <= timer_diff (vars w) ->
  follows d w -> follows clean (update now d w).
Proof.
  intros Hd (s0 & H0 & Hp & He & Ht). unfold update.
  set (s1 := if eta_dirty d || old_eta_dirty d || queue_dirty d
                || timer_start_dirty d
             then eta_block now (vars w) else vars w).
  assert (Hd1 : timer_diff s1 = timer_diff (vars w)).
  { unfold s1. destruct (eta_dirty d || old_eta_dirty d || queue_dirty d
                         || timer_start_dirty d);
      [apply eta_block_keeps_timer|reflexivity]. }
  set (d1 := mark (vars w) s1 d).
  assert (Hed : eta_dirty d1 = false ->
                eta_dirty d = false /\ same_number (eta (vars w)) (eta s1)).
  { unfold d1, mark. cbn [eta_dirty]. intros H.
    apply orb_false_iff in H. destruct H as [H1 H2].
    split; [exact H1|apply changed_nullable_false, H2]. }
  assert (Htd : timer_diff_dirty d1 = timer_diff_dirty d).
  { unfold d1, mark. cbn [timer_diff_dirty]. rewrite Hd1.
    rewrite changed_number_same. apply orb_false_r. }
  set (s2 := if status_dirty d1 then status_block now s1 else s1).
  assert (He2 : eta s2 = eta s1).
  { unfold s2. destruct (status_dirty d1);
      [apply status_block_keeps_eta|reflexivity]. }
  assert (Hd2 : timer_diff s2 = timer_diff s1 \/ timer_diff s2 = 0).
  { unfold s2. destruct (status_dirty d1);
      [right; apply status_block_keeps_eta|left; reflexivity]. }
  unfold follows. cbn [vars progress eta_dirty timer_diff_dirty clean].
  destruct (eta_dirty d1 || timer_diff_dirty d1) eqn:Hrun.
  - exists s1. rewrite Hd1. split; [exact Hd|].
    split; [apply same_number_refl|].
    split; intros _.
    + rewrite He2. apply same_number_refl.
    + destruct Hd2 as [-> | ->]; [left; rewrite Hd1|right]; reflexivity.
  - apply orb_false_iff in Hrun. destruct Hrun as [He1 Ht1].
    destruct (Hed He1) as [He0 Hsame]. rewrite Htd in Ht1.
    exists s0. split; [exact H0|]. split; [exact Hp|].
    split; intros _.
    + rewrite He2. apply (same_number_trans _ (eta (vars w)));
        [apply He, He0|exact Hsame].
    + destruct Hd2 as [H2|H2]; rewrite H2; [|right; reflexivity].
      rewrite Hd1. apply Ht, Ht1.
Qed.

Lemma assign_keeps_timer (a : assignment) (s : tracker) :
  timer_diff (assign a s) = timer_diff s
  /\ timer_start (assign a s) = timer_start s.
Proof. destruct a; split; reflexivity. Qed.

Lemma follows_assign (a : assignment) (d : dirty) (s : tracker)
  (p : option Q) (f : string) :
  follows d (mkWidget s p f) ->
  follows (mark s (assign a s) d) (mkWidget (assign a s) p f).
Proof.
  intros (s0 & H0 & Hp & He & Ht). exists s0. cbn [vars progress] in *.
  split; [exact H0|]. split; [exact Hp|]. split.
  - unfold mark. cbn [eta_dirty]. intros H.
    apply orb_false_iff in H. destruct H as [H1 H2].
    apply (same_number_trans _ (eta s)); [apply He, H1|].
    apply changed_nullable_false, H2.
  - unfold mark. cbn [timer_diff_dirty].
    rewrite (proj1 (assign_keeps_timer a s)), changed_number_same,
      orb_false_r.
    exact Ht.
Qed.

Lemma set_props_keeps (ps : list assignment) :
  forall (s : tracker) (d : dirty) (p : option Q) (f : string),
    follows d (mkWidget s p f) ->
    follows (snd (set_props ps s d)) (mkWidget (fst (set_props ps s d)) p f)
    /\ timer_diff (fst (set_props ps s d)) = timer_diff s
    /\ timer_start (fst (set_props ps s d)) = timer_start s.
Proof.
  induction ps as [|a ps IH]; intros s d p f H.
  - cbn. tauto.
  - unfold set_props. cbn [fold_left fst snd].
    fold (set_props ps (assign a s) (mark s (assign a s) d)).
    destruct (IH _ _ p f (follows_assign a d s p f H)) as (Hf & Hd & Hs).
    destruct (assign_keeps_timer a s) as [Hd' Hs'].
    split; [exact Hf|]. split; congruence.
Qed.

Lemma sound_supply (ps : list assignment) (t now : Q) (w : widget) :
  sound t w -> t <= now -> sound now (supply ps now w).
Proof.
  intros [Ht Hf] Hle. unfold supply.
  assert (Hf' : follows clean
                  (mkWidget (vars w) (progress w) (formatted_timer w))).
  { destruct w. exact Hf. }
  destruct (set_props_keeps ps _ _ _ (formatted_timer w) Hf')
    as (Hf2 & Hd & Hs).
  assert (Ht2 : timed t (fst (set_props ps (vars w) clean))).
  { unfold timed. rewrite Hd, Hs. exact Ht. }
  split.
  - apply (timed_update t); [exact Ht2|exact Hle].
  - apply update_follows; [|exact Hf2].
    cbn [vars]. rewrite Hd. apply Ht.
Qed.

Lemma run_callback_fields (now : Q) (s : tracker) :
  eta (run_callback now s) = eta s
  /\ queue (run_callback now s) = queue s
  /\ status (run_callback now s) = status s
  /\ timer_start (run_callback now s) = timer_start s
  /\ old_eta (run_callback now s) = old_eta s
  /\ timer_diff (run_callback now s) = (now - timer_start s) / 1000.
Proof.
  unfold run_callback, run. cbn. destruct (_timer s); repeat split.
Qed.

Lemma sound_callback (t now : Q) (w : widget) :
  sound t w -> t <= now -> sound now (callback now w).
Proof.
  intros [[Hs Hd] (s0 & H0 & Hp & He & Ht)] Hle. unfold callback.
  destruct (run_callback_fields now (vars w))
    as (Fe & Fq & Fst & Fts & Fo & Fd).
  assert (Hd' : 0 <= timer_diff (run_callback now (vars w))).
  { rewrite Fd. apply Qle_shift_div_l; lra. }
  split.
  - apply (timed_update now); [|lra]. cbn [vars].
    split; [rewrite Fts; lra|exact Hd'].
  - apply update_follows; [exact Hd'|].
    exists s0. cbn [vars progress]. split; [exact H0|]. split; [exact Hp|].
    split; intros H.
    + rewrite Fe. apply He. reflexivity.
    + unfold mark in H. cbn [timer_diff_dirty clean orb] in H.
      apply changed_number_false in H.
      destruct (Ht eq_refl) as [H1|H1]; [left|right]; rewrite <- H; exact H1.
Qed.

Lemma sound_animation_frame (t now : Q) (w : widget) :
  sound t w -> t <= now -> sound now (animation_frame now w).
Proof.
  intros Hw Hle. unfold animation_frame.
  set (w0 := mkWidget _ (progress w) (formatted_timer w)).
  assert (H0 : sound t w0).
  { destruct Hw as [Ht Hf]. split; [exact Ht|].
    destruct Hf as (s0 & H). exists s0. exact H. }
  destruct (frames (vars w)) as [|n].
  - destruct H0 as [[Hs Hd] Hf]. split; [split; [cbn in *; lra|exact Hd]|].
    exact Hf.
  - assert (H : forall n, sound now (Nat.iter (S n) (callback now) w0)).
    { clear n. induction n as [|n IH].
      - apply (sound_callback t); assumption.
      - change (Nat.iter (S (S n)) (callback now) w0)
          with (callback now (Nat.iter (S n) (callback now) w0)).
        apply (sound_callback now); [exact IH|lra]. }
    apply H.
Qed.

Lemma sound_create (eta0 : option Q) (queue0 : bool) (status0 : status_t)
  (t0 : Q) :
  0 <= t0 -> sound t0 (create eta0 queue0 status0 t0).
Proof.
  intros H0. unfold create. split.
  - apply (timed_update t0); [|lra]. unfold timed. cbn. lra.
  - apply update_follows; [cbn; lra|].
    exists (initial eta0 queue0 status0). cbn.
    split; [lra|]. split; [|split; discriminate].
    unfold Timer.progress. cbn.
    destruct eta0; [rewrite orb_true_r|]; exact I.
Qed.

Lemma sound_play (h : list (Q * event)) :
  forall t w, sound t w -> monotonic t h -> exists t', sound t' (play h w).
Proof.
  induction h as [|[t1 ev] h IH]; intros t w Hw Hm.
  - exists t. exact Hw.
  - cbn in Hm. destruct Hm as [Hle Hm]. cbn.
    apply (IH t1); [|exact Hm].
    destruct ev as [ps|]; cbn [step].
    + apply (sound_supply ps t); assumption.
    + apply (sound_animation_frame t); assumption.
Qed.

Lemma live_sound (w : widget) : live w -> exists t, sound t w.
Proof.
  intros (e0 & q0 & st0 & t0 & h & H0 & Hm & ->).
  apply (sound_play h t0); [apply sound_create, H0|exact Hm].
Qed.

(** In a live component the held progress is the expression on the held
    [eta] and on an elapsed time that is the held one, unless that has been
    set to 0 since. *)
Lemma live_progress (w : widget) :
  live w ->
  0 <= timer_diff (vars w)
  /\ exists s0, 0 <= timer_diff s0
       /\ same_number (progress w) (Timer.progress s0)
       /\ same_number (eta s0) (eta (vars w))
       /\ (timer_diff s0 == timer_diff (vars w) \/ timer_diff (vars w) == 0).
Proof.
  intros H. destruct (live_sound w H) as (t & [_ Hd] & s0 & H0 & Hp & He & Ht).
  split; [exact Hd|]. exists s0.
  split; [exact H0|]. split; [exact Hp|].
  split; [apply He|apply Ht]; reflexivity.
Qed.

Lemma same_number_some (a : option Q) (q : Q) :
  same_number a (Some q) -> exists p, a = Some p /\ p == q.
Proof. destruct a as [p|]; cbn; [|tauto]. intros H. exists p. tauto. Qed.


Lemma changed_status_same (st : status_t) : changed_status st st = false.
Proof. destruct st; reflexivity. Qed.

Lemma changed_status_other (a b : status_t) : a <> b -> changed_status a b = true.
Proof. destruct a, b; try reflexivity; congruence. Qed.

Lemma mark_timer_diff_only (s s' : tracker) :
  eta s' = eta s -> queue s' = queue s -> status s' = status s ->
  timer_start s' = timer_start s -> old_eta s' = old_eta s ->
  mark s s' clean
  = mkDirty false false false false
            (changed_number (timer_diff s) (timer_diff s')) false.
Proof.
  intros He Hq Hst Hts Ho. unfold mark. cbn.
  rewrite He, Hq, Hst, Hts, Ho.
  rewrite !changed_nullable_same, changed_status_same, changed_number_same,
    xorb_nilpotent.
  reflexivity.
Qed.

(** An update in which only the elapsed time is dirty, or nothing, leaves
    the variables of the script as they are. *)
Lemma vars_update_timer_diff (now : Q) (b : bool) (w : widget) :
  vars (update now (mkDirty false false false false b false) w) = vars w.
Proof.
  unfold update. cbn [eta_dirty queue_dirty old_eta_dirty timer_start_dirty
    orb vars mark status_dirty].
  rewrite changed_status_same. reflexivity.
Qed.

Lemma update_clean (now : Q) (w : widget) : update now clean w = w.
Proof.
  unfold update, clean. cbn [eta_dirty queue_dirty old_eta_dirty
    timer_start_dirty timer_diff_dirty status_dirty orb mark].
  rewrite changed_nullable_same, changed_status_same, !changed_number_same.
  destruct w. reflexivity.
Qed.

Lemma vars_callback (now : Q) (w : widget) :
  vars (callback now w) = run_callback now (vars w).
Proof.
  unfold callback.
  destruct (run_callback_fields now (vars w))
    as (Fe & Fq & Fst & Fts & Fo & _).
  rewrite (mark_timer_diff_only _ _ Fe Fq Fst Fts Fo).
  apply vars_update_timer_diff.
Qed.

Lemma vars_iter_callback (now : Q) (n : nat) :
  forall w, vars (Nat.iter n (callback now) w)
            = Nat.iter n (run_callback now) (vars w).
Proof.
  induction n as [|n IH]; intros w; [reflexivity|].
  change (Nat.iter (S n) (callback now) w)
    with (callback now (Nat.iter n (callback now) w)).
  change (Nat.iter (S n) (run_callback now) (vars w))
    with (run_callback now (Nat.iter n (run_callback now) (vars w))).
  rewrite vars_callback, IH. reflexivity.
Qed.

(** The frames of the component do to the variables of the script what the
    callbacks of [run] do. *)
Lemma vars_animation_frame (now : Q) (w : widget) :
  vars (animation_frame now w) = Timer.animation_frame now (vars w).
Proof.
  unfold animation_frame, Timer.animation_frame.
  rewrite vars_iter_callback. reflexivity.
Qed.

(** A prop supplied with the value held changes nothing. *)
Lemma supply_same_status (now : Q) (w : widget) :
  supply [Set_status (status (vars w))] now w = w.
Proof.
  unfold supply, set_props. cbn [fold_left fst snd].
  assert (Ha : assign (Set_status (status (vars w))) (vars w) = vars w).
  { destruct (vars w). reflexivity. }
  rewrite Ha.
  assert (Hm : mark (vars w) (vars w) clean = clean).
  { unfold mark, clean. cbn.
    rewrite !changed_nullable_same, changed_status_same, !changed_number_same,
      xorb_nilpotent.
    reflexivity. }
  rewrite Hm, update_clean. destruct w. reflexivity.
Qed.

(** A status that differs from the one held runs the status statement, and
    that one only. *)
Lemma supply_other_status (st : status_t) (now : Q) (w : widget) :
  status (vars w) <> st ->
  vars (supply [Set_status st] now w) = set_status st now (vars w).
Proof.
  intros Hne. unfold supply, set_props. cbn [fold_left fst snd].
  assert (Hm : mark (vars w) (assign (Set_status st) (vars w)) clean
               = mkDirty false false true false false false).
  { unfold mark, clean. cbn.
    rewrite !changed_nullable_same, !changed_number_same, xorb_nilpotent,
      (changed_status_other _ _ Hne).
    reflexivity. }
  rewrite Hm. unfold update.
  cbn [eta_dirty queue_dirty old_eta_dirty timer_start_dirty orb vars].
  unfold mark. cbn [status_dirty orb]. reflexivity.
Qed.

(** C5. A second [pending] supplied while the component holds [pending]
    does not run the status statement: the component is what it was, the
    start is still the time of the first [pending], and the next frame reads
    the time elapsed since that first start. The same holds when frames have
    come in between. *)
Theorem second_pending_does_not_restart (w : widget) (t1 t2 t3 : Q) :
  status (vars w) <> pending ->
  let w1 := supply [Set_status pending] t1 w in
  let w2 := supply [Set_status pending] t2 w1 in
  w2 = w1
  /\ timer_start (vars w2) = t1
  /\ timer_diff (vars w2) = 0
  /\ _timer (vars w2) = true
  /\ timer_diff (vars (animation_frame t3 w2)) = (t3 - t1) / 1000
  /\ supply [Set_status pending] t3 (animation_frame t2 w1)
     = animation_frame t2 w1.
Proof.
  intros Hne. cbn zeta.
  assert (Hv : vars (supply [Set_status pending] t1 w)
               = set_status pending t1 (vars w)).
  { apply supply_other_status, Hne. }
  assert (Hst : status (vars (supply [Set_status pending] t1 w)) = pending).
  { rewrite Hv. reflexivity. }
  assert (H2 : supply [Set_status pending] t2
                 (supply [Set_status pending] t1 w)
               = supply [Set_status pending] t1 w).
  { rewrite <- Hst at 1. apply supply_same_status. }
  rewrite H2. split; [reflexivity|]. rewrite Hv.
  split; [reflexivity|]. split; [reflexivity|]. split; [reflexivity|].
  split.
  - rewrite vars_animation_frame, Hv.
    unfold set_status, status_block, start_timer, run.
    cbn [status is_pending].
    rewrite animation_frame_ticks with (n := frames (vars w))
      by reflexivity.
    reflexivity.
  - assert (Hst' : status (vars (animation_frame t2
                                   (supply [Set_status pending] t1 w)))
                   = pending).
    { rewrite vars_animation_frame, Hv.
      unfold set_status, status_block, start_timer, run.
      cbn [status is_pending].
      rewrite animation_frame_ticks with (n := frames (vars w))
        by reflexivity.
      reflexivity. }
    rewrite <- Hst' at 1. apply supply_same_status.
Qed.

(** A component is created with the status [complete]; [pending] comes at
    0 and again at 3 seconds; the frame at 4 seconds reads 4 seconds. *)
Lemma second_pending_does_not_restart_witness :
  let w := create None false complete 0 in
  status (vars w) <> pending
  /\ supply [Set_status pending] 3000 (supply [Set_status pending] 0 w)
     = supply [Set_status pending] 0 w
  /\ timer_diff
       (vars (animation_frame 4000
                (supply [Set_status pending] 3000
                   (supply [Set_status pending] 0 w))))
     = (4000 - 0) / 1000.
Proof.
  cbn zeta.
  assert (Hne : status (vars (create None false complete 0)) <> pending)
    by (cbn; discriminate).
  split; [exact Hne|].
  destruct (second_pending_does_not_restart
              (create None false complete 0) 0 3000 4000 Hne)
    as (H1 & _ & _ & _ & H2 & _).
  split; [exact H1|exact H2].
Defined.




(** X7. In every state of a live component the scale of the progress bar
    lies between 0 and 1, also while the held progress is that of an
    earlier elapsed time; a progress that is there is above 0 and at most 1;
    and with a positive [eta] and an elapsed time that is not zero the scale
    is the elapsed time over [eta] clamped to that interval. *)
Theorem bar_scale_in_unit_interval (w : widget) :
  live w ->
  (0 <= bar_scale w /\ bar_scale w <= 1)
  /\ (forall p, progress w = Some p -> 0 < p /\ p <= 1)
  /\ (forall e, eta (vars w) = Some e -> 0 < e ->
        ~ timer_diff (vars w) == 0 ->
        bar_scale w == clamp01 (timer_diff (vars w) / e)).
Proof.
  intros Hl.
  destruct (live_progress w Hl) as (Hd & s0 & H0 & Hp & He & Ht).
  assert (Hb : forall p, progress w = Some p -> 0 < p /\ p <= 1).
  { intros p Hw. rewrite Hw in Hp.
    destruct (Timer.progress s0) as [q|] eqn:Hq; [|contradiction].
    cbn in Hp.
    destruct (proj2 (proj2 (proj2 (proj2 (progress_expression s0 H0))))
                q Hq) as [Hq0 Hq1].
    rewrite Hp. split; assumption. }
  split; [|split; [exact Hb|]].
  - unfold bar_scale. destruct (progress w) as [p|]; [|lra].
    destruct (Hb p eq_refl). destruct (Qeq_bool p 0); lra.
  - intros e Hew Hpos Hnz.
    destruct Ht as [Ht|Ht]; [|contradiction].
    pose proof (progress_comp s0 (vars w) He Ht) as Hc.
    destruct (proj1 (progress_expression (vars w) Hd) e Hew Hpos Hnz)
      as (p' & Hp' & Hclamp).
    rewrite Hp' in Hc.
    destruct (same_number_some _ _ (same_number_trans _ _ _ Hp Hc))
      as (p & Hw & Hpp).
    unfold bar_scale. rewrite Hw.
    destruct (Hb p Hw) as [Hp0 _].
    assert (Hz : Qeq_bool p 0 = false).
    { destruct (Qeq_bool p 0) eqn:H; [|reflexivity].
      apply Qeq_bool_iff in H. lra. }
    rewrite Hz, Hpp. exact Hclamp.
Qed.

(** The component of the example is stopped at 5 seconds and started again
    at 6: until the next frame the bar stands at 0.4 with 0 elapsed. *)
Lemma bar_scale_in_unit_interval_witness :
  let w := play [(4000, Frame); (5000, Props [Set_status complete]);
                 (6000, Props [Set_status pending])]
             (create (Some 10) false pending 0) in
  live w /\ timer_diff (vars w) == 0 /\ bar_scale w == 4 # 10
  /\ bar_scale w <= 1.
Proof.
  cbn zeta.
  assert (Hl : live
                 (play [(4000, Frame); (5000, Props [Set_status complete]);
                        (6000, Props [Set_status pending])]
                    (create (Some 10) false pending 0))).
  { exists (Some 10), false, pending, 0,
      [(4000, Frame); (5000, Props [Set_status complete]);
       (6000, Props [Set_status pending])].
    split; [unfold Qle; simpl; lia|]. split; [|reflexivity].
    cbn. repeat split; unfold Qle; simpl; lia. }
  split; [exact Hl|]. split; [vm_compute; reflexivity|].
  split; [vm_compute; reflexivity|].
  exact (proj2 (proj1 (bar_scale_in_unit_interval _ Hl))).
Defined.

End ComponentFacts.

(** ** The image editor *)

Module EditorFacts.
Import Editor.

(** A message of type [t] with the detail [det], from [src] at [org]. *)
Local Abbreviation message t det org src :=
  (mkEvent (Some (mkData (Some t%string) det)) org src).

Lemma same_image_refl (a : option string) : same_image a a = true.
Proof. destruct a as [x|]; [apply String.eqb_refl|reflexivity]. Qed.

(** The handler on an output message that carries a detail. *)
Lemma processMessages_output (s : editor) (d : image_value) (org : string)
  (src : option window) :
  processMessages (message "image-editor-output" (Some d) org src) s
  = Returned (mkEditor (mkValue (image d) (mask d)) (imageEditor s) (image d)
                       (listening s) (posted s)
                       (dispatched s ++ [mkValue (image d) (mask d)])).
Proof. reflexivity. Qed.

(** The handler on a [loaded] message, the iframe being bound. *)
Lemma processMessages_loaded (s : editor) (det : option image_value)
  (org : string) (src : option window) (fr : iframe) :
  imageEditor s = Some fr ->
  processMessages (message "loaded" det org src) s
  = Returned (postMessage (contentWindow fr) "detail" (image (value s)) s).
Proof.
  intros H. unfold processMessages, on_loaded. cbn [type_is data type].
  cbn [String.eqb Ascii.eqb Bool.eqb]. rewrite H. reflexivity.
Qed.

(** An output message without a detail makes the handler throw before it
    has changed anything. *)
Lemma processMessages_output_no_detail (s : editor) (org : string)
  (src : option window) :
  processMessages (message "image-editor-output" None org src) s = Thrown s.
Proof. reflexivity. Qed.

(** The statement on [value] posts nothing when [imageEditorValue] is the
    image of [value]. *)
Lemma value_block_same (s : editor) :
  imageEditorValue s = image (value s) -> value_block s = s.
Proof.
  intros H. unfold value_block, compareValues.
  destruct (imageEditor s); [|reflexivity].
  rewrite H, same_image_refl. reflexivity.
Qed.

(** C9. While the handler listens, a message of type [image-editor-output]
    makes the widget take the image and the mask of the message's detail as
    its value and dispatch [change] with them, and a message of type
    [loaded] makes it post the current image to the iframe's window, with
    the target origin [*]: whatever the origin and the source of the
    message. *)
Theorem messages_accepted_from_anyone (s : editor) (org : string)
  (src : option window) :
  listening s = true ->
  (forall d, exists s',
      message_event (message "image-editor-output" (Some d) org src) s
      = Returned s'
      /\ value s' = mkValue (image d) (mask d)
      /\ dispatched s' = dispatched s ++ [mkValue (image d) (mask d)])
  /\ (forall det fr cw,
        imageEditor s = Some fr -> contentWindow fr = Some cw ->
        exists s',
          message_event (message "loaded" det org src) s = Returned s'
          /\ posted s' =
               posted s ++ [mkPosted cw "image-editor-input" "detail"
                                     (image (value s)) "*"]
          /\ value s' = value s).
Proof.
  intros Hl. split.
  - intros d. unfold message_event. rewrite Hl, processMessages_output.
    cbn [and_then type_is data type].
    rewrite String.eqb_refl, value_block_same by reflexivity.
    eexists. split; [reflexivity|]. split; reflexivity.
  - intros det fr cw Hfr Hcw. unfold message_event.
    rewrite Hl, (processMessages_loaded s det org src fr Hfr), Hcw.
    cbn [and_then postMessage type_is data type].
    cbn [String.eqb Ascii.eqb Bool.eqb].
    eexists. split; [reflexivity|]. split; reflexivity.
Qed.

(** A mounted editor gets a [loaded] message from a window that is not the
    iframe's, at an origin of its own. *)
Lemma messages_accepted_from_anyone_witness :
  let s := onMount (mkIframe (Some 1%nat))
             (mkEditor (mkValue (Some "img"%string) None) None None false
                       [] []) in
  listening s = true
  /\ exists s',
       message_event (message "loaded" None "https://elsewhere.example"
                              (Some 9%nat)) s = Returned s'
       /\ posted s' = [mkPosted 1%nat "image-editor-input" "detail"
                                (Some "img"%string) "*"]
       /\ value s' = value s.
Proof.
  cbn zeta. split; [reflexivity|].
  destruct (messages_accepted_from_anyone
              (onMount (mkIframe (Some 1%nat))
                 (mkEditor (mkValue (Some "img"%string) None) None None false
                           [] []))
              "https://elsewhere.example" (Some 9%nat) eq_refl) as [_ H].
  apply (H None (mkIframe (Some 1%nat)) 1%nat); reflexivity.
Defined.

(** C10. After the handler has handled an output message,
    [imageEditorValue] is the image of [value]; the statement on [value]
    that runs next posts nothing, and the whole event leaves the posted
    messages as they were. *)
Theorem output_is_not_echoed (s : editor) (d : image_value) (org : string)
  (src : option window) :
  exists s',
    processMessages (message "image-editor-output" (Some d) org src) s
    = Returned s'
    /\ imageEditorValue s' = image (value s')
    /\ value_block s' = s'
    /\ posted s' = posted s
    /\ (listening s = true ->
        message_event (message "image-editor-output" (Some d) org src) s
        = Returned s').
Proof.
  rewrite processMessages_output. eexists. split; [reflexivity|].
  split; [reflexivity|]. split; [apply value_block_same; reflexivity|].
  split; [reflexivity|].
  intros Hl. unfold message_event.
  rewrite processMessages_output, Hl. cbn [and_then type_is data type].
  rewrite String.eqb_refl, value_block_same by reflexivity. reflexivity.
Qed.

(** A mounted editor that shows one image gets another from the iframe. *)
Lemma output_is_not_echoed_witness :
  let s := onMount (mkIframe (Some 1%nat))
             (mkEditor (mkValue (Some "old"%string) None) None
                       (Some "old"%string) false [] []) in
  let e := message "image-editor-output"
             (Some (mkValue (Some "new"%string) (Some "m"%string)))
             "https://elsewhere.example" (Some 1%nat) in
  listening s = true
  /\ exists s', message_event e s = Returned s'
       /\ imageEditorValue s' = image (value s') /\ posted s' = [].
Proof.
  cbn zeta. split; [reflexivity|].
  destruct (output_is_not_echoed
              (onMount (mkIframe (Some 1%nat))
                 (mkEditor (mkValue (Some "old"%string) None) None
                           (Some "old"%string) false [] []))
              (mkValue (Some "new"%string) (Some "m"%string))
              "https://elsewhere.example" (Some 1%nat))
    as (s' & _ & Hv & _ & Hp & Hm).
  exists s'. split; [apply Hm; reflexivity|]. split; [exact Hv|exact Hp].
Defined.

(** *** Further properties of the editor *)

Lemma type_is_one (e : MessageEvent) (t1 t2 : string) :
  type_is e t1 = true -> type_is e t2 = true -> t1 = t2.
Proof.
  unfold type_is. destruct (data e) as [[[t|] det]|]; try discriminate.
  cbn. intros H1 H2. apply String.eqb_eq in H1, H2. congruence.
Qed.

(** X19. A message whose type is neither [loaded] nor
    [image-editor-output], or that has no data or no type at all, is
    ignored: the handler returns with the component as it was. *)
Theorem other_messages_are_ignored (e : MessageEvent) (s : editor) :
  type_is e "loaded" = false ->
  type_is e "image-editor-output" = false ->
  processMessages e s = Returned s /\ message_event e s = Returned s.
Proof.
  intros Hl Ho.
  assert (Hp : processMessages e s = Returned s).
  { unfold processMessages, on_loaded, on_output. rewrite Hl. cbn [and_then].
    rewrite Ho. reflexivity. }
  split; [exact Hp|].
  unfold message_event. rewrite Hp, Ho. cbn.
  destruct (listening s); reflexivity.
Qed.

Lemma other_messages_are_ignored_witness :
  let s := onMount (mkIframe (Some 1%nat))
             (mkEditor (mkValue (Some "img"%string) None) None None false
                       [] []) in
  let e := mkEvent (Some (mkData (Some "resize"%string)
                            (Some (mkValue (Some "x"%string) None))))
             "https://elsewhere.example" None in
  type_is e "loaded" = false /\ type_is e "image-editor-output" = false
  /\ message_event e s = Returned s
  /\ message_event (mkEvent None "https://elsewhere.example" None) s
     = Returned s.
Proof.
  cbn zeta. split; [reflexivity|]. split; [reflexivity|]. split.
  - apply other_messages_are_ignored; reflexivity.
  - apply other_messages_are_ignored; reflexivity.
Defined.

(** X20. The handler throws in two cases only, a [loaded] message while no
    iframe is bound and an output message without a detail, and it throws
    before it has changed anything. *)
Theorem handler_throws_before_any_change (e : MessageEvent) (s s' : editor) :
  processMessages e s = Thrown s' ->
  s' = s
  /\ ((type_is e "loaded" = true /\ imageEditor s = None)
      \/ (type_is e "image-editor-output" = true
          /\ exists t, data e = Some (mkData t None))).
Proof.
  unfold processMessages, on_loaded.
  destruct (type_is e "loaded") eqn:Hl.
  - destruct (imageEditor s) as [fr|] eqn:Hfr; cbn [and_then].
    + unfold on_output.
      destruct (type_is e "image-editor-output") eqn:Ho; [|discriminate].
      pose proof (type_is_one e _ _ Hl Ho). discriminate.
    + intros [= <-]. split; [reflexivity|]. left. split; reflexivity.
  - cbn [and_then]. unfold on_output.
    destruct (type_is e "image-editor-output") eqn:Ho; [|discriminate].
    destruct (data e) as [[t [d|]]|] eqn:Hd; try discriminate.
    + intros [= <-]. split; [reflexivity|]. right.
      split; [reflexivity|]. exists t. reflexivity.
    + unfold type_is in Ho. rewrite Hd in Ho. discriminate.
Qed.

Lemma handler_throws_before_any_change_witness :
  let s := mkEditor (mkValue (Some "img"%string) None) None None true [] [] in
  let e := mkEvent (Some (mkData (Some "loaded"%string) None))
             "https://elsewhere.example" None in
  processMessages e s = Thrown s /\ s = s.
Proof.
  cbn zeta.
  assert (H : processMessages
                (mkEvent (Some (mkData (Some "loaded"%string) None))
                   "https://elsewhere.example" None)
                (mkEditor (mkValue (Some "img"%string) None) None None true
                   [] [])
              = Thrown (mkEditor (mkValue (Some "img"%string) None) None None
                          true [] [])) by reflexivity.
  split; [exact H|].
  exact (eq_sym (proj1 (handler_throws_before_any_change _ _ _ H))).
Defined.

(** What the statement on [value] and the handler do to the posted
    messages: they add well-formed ones only. *)
Lemma postMessage_input (win : option window) (key : string)
  (img : option string) (s : editor) :
  key = "image"%string \/ key = "detail"%string ->
  Forall input_message (posted s) ->
  Forall input_message (posted (postMessage win key img s)).
Proof.
  intros Hk H. unfold postMessage. destruct win as [w|]; [|exact H].
  cbn. apply Forall_app. split; [exact H|].
  constructor; [|constructor]. unfold input_message. cbn. tauto.
Qed.

Lemma compareValues_input (val : image_value) (s : editor) :
  Forall input_message (posted s) ->
  Forall input_message (posted (compareValues val s)).
Proof.
  intros H. unfold compareValues. destruct (imageEditor s) as [fr|]; [|exact H].
  destruct (negb (same_image (imageEditorValue s) (image val))); [|exact H].
  apply postMessage_input; [left; reflexivity|exact H].
Qed.

Lemma processMessages_input (e : MessageEvent) (s : editor) :
  Forall input_message (posted s) ->
  Forall input_message (posted (state_of (processMessages e s))).
Proof.
  intros H. unfold processMessages, on_loaded.
  destruct (type_is e "loaded").
  - destruct (imageEditor s) as [fr|]; cbn [and_then state_of]; [|exact H].
    assert (H' : Forall input_message
                   (posted (postMessage (contentWindow fr) "detail"
                              (image (value s)) s))).
    { apply postMessage_input; [right; reflexivity|exact H]. }
    unfold on_output. destruct (type_is e "image-editor-output");
      [|exact H'].
    destruct (data e) as [[t [d|]]|]; cbn; exact H'.
  - cbn [and_then]. unfold on_output.
    destruct (type_is e "image-editor-output"); [|exact H].
    destruct (data e) as [[t [d|]]|]; cbn; exact H.
Qed.

Lemma step_input (s : editor) (ev : event) :
  Forall input_message (posted s) ->
  Forall input_message (posted (step s ev)).
Proof.
  intros H. destruct ev as [fr| |e|v]; cbn [step].
  - exact H.
  - exact H.
  - unfold message_event. destruct (listening s); [|exact H].
    pose proof (processMessages_input e s H) as Hp.
    destruct (processMessages e s) as [s1|s1]; cbn [and_then state_of] in *;
      [|exact Hp].
    destruct (type_is e "image-editor-output"); [|exact Hp].
    apply compareValues_input, Hp.
  - unfold set_value, value_block. apply compareValues_input. exact H.
Qed.

(** X21. Whatever happens to the editor (mounts, teardowns, messages from
    anyone, values from the parent), every message it posts to the iframe
    has the type [image-editor-input] and the target origin [*], and carries
    the image under the key [image] or the key [detail]. *)
Theorem posted_messages_are_inputs (h : list event) (s : editor) :
  Forall input_message (posted s) ->
  Forall input_message (posted (play h s)).
Proof.
  revert s. induction h as [|ev h IH]; intros s H; [exact H|].
  cbn. apply IH, step_input, H.
Qed.

Lemma posted_messages_are_inputs_witness :
  let s := mkEditor (mkValue None None) None None false [] [] in
  let h := [Mount (mkIframe (Some 1%nat));
            Message (mkEvent (Some (mkData (Some "loaded"%string) None))
                       "https://elsewhere.example" None);
            Value (mkValue (Some "a"%string) None)] in
  Forall input_message (posted s)
  /\ List.length (posted (play h s)) = 2%nat
  /\ Forall input_message (posted (play h s)).
Proof.
  cbn zeta.
  assert (H0 : Forall input_message
                 (posted (mkEditor (mkValue None None) None None false [] [])))
    by constructor.
  split; [exact H0|]. split; [reflexivity|].
  apply (posted_messages_are_inputs _ _ H0).
Defined.

(** X22. After an output message has been adopted, a value that the parent
    supplies with the same image, whatever its mask, is not posted to the
    iframe. *)
Theorem adopted_image_not_posted_back (s : editor) (d : image_value)
  (m : option string) (org : string) (src : option window) :
  let s' := state_of
              (processMessages
                 (message "image-editor-output" (Some d) org src) s) in
  posted (set_value (mkValue (image d) m) s') = posted s
  /\ value (set_value (mkValue (image d) m) s') = mkValue (image d) m
  /\ dispatched (set_value (mkValue (image d) m) s') = dispatched s'.
Proof.
  cbn zeta. rewrite processMessages_output. cbn [state_of].
  unfold set_value. rewrite value_block_same by reflexivity.
  repeat split.
Qed.

(** X23. [imageEditorValue] is written by the output handler only: a value
    from the parent whose image differs from it is posted to the iframe's
    window under the key [image], and posted again each time it is
    supplied. *)
Theorem differing_value_posted_each_time (s : editor) (v : image_value)
  (fr : iframe) (cw : window) :
  imageEditor s = Some fr -> contentWindow fr = Some cw ->
  same_image (imageEditorValue s) (image v) = false ->
  let m := mkPosted cw "image-editor-input" "image" (image v) "*" in
  posted (set_value v s) = posted s ++ [m]
  /\ imageEditorValue (set_value v s) = imageEditorValue s
  /\ posted (set_value v (set_value v s)) = posted s ++ [m; m].
Proof.
  intros Hfr Hcw Hd. cbn zeta.
  assert (H1 : set_value v s
               = mkEditor v (imageEditor s) (imageEditorValue s) (listening s)
                   (posted s ++ [mkPosted cw "image-editor-input" "image"
                                          (image v) "*"])
                   (dispatched s)).
  { unfold set_value, value_block, compareValues. cbn.
    rewrite Hfr, Hd, Hcw. reflexivity. }
  rewrite H1. cbn [posted imageEditorValue].
  split; [reflexivity|]. split; [reflexivity|].
  unfold set_value, value_block, compareValues. cbn.
  rewrite Hfr, Hd, Hcw. cbn. rewrite <- app_assoc. reflexivity.
Qed.

Lemma differing_value_posted_each_time_witness :
  let s := onMount (mkIframe (Some 1%nat))
             (mkEditor (mkValue None None) None None false [] []) in
  let v := mkValue (Some "a"%string) None in
  imageEditor s = Some (mkIframe (Some 1%nat))
  /\ same_image (imageEditorValue s) (image v) = false
  /\ List.length (posted (set_value v (set_value v s))) = 2%nat.
Proof.
  cbn zeta. split; [reflexivity|]. split; [reflexivity|].
  destruct (differing_value_posted_each_time
              (onMount (mkIframe (Some 1%nat))
                 (mkEditor (mkValue None None) None None false [] []))
              (mkValue (Some "a"%string) None) (mkIframe (Some 1%nat)) 1%nat
              eq_refl eq_refl eq_refl) as (_ & _ & H).
  rewrite H. reflexivity.
Defined.

(** X24. While the handler does not listen, before the mount and after the
    teardown, no sequence of messages changes the component. *)
Theorem messages_ignored_while_not_listening (msgs : list MessageEvent)
  (s : editor) :
  listening s = false ->
  play (map Message msgs) s = s
  /\ play (Destroy :: map Message msgs) s = s.
Proof.
  intros Hl.
  assert (H : play (map Message msgs) s = s).
  { induction msgs as [|e msgs IH]; [reflexivity|].
    cbn [map play fold_left step]. unfold message_event. rewrite Hl.
    cbn [state_of]. exact IH. }
  split; [exact H|].
  cbn [play fold_left step].
  assert (Hd : onDestroy s = s).
  { unfold onDestroy. rewrite <- Hl. destruct s; reflexivity. }
  rewrite Hd. exact H.
Qed.

Lemma messages_ignored_while_not_listening_witness :
  let s := onDestroy
             (onMount (mkIframe (Some 1%nat))
                (mkEditor (mkValue (Some "img"%string) None) None None false
                          [] [])) in
  let msgs := [mkEvent (Some (mkData (Some "loaded"%string) None))
                 "https://elsewhere.example" None;
               mkEvent (Some (mkData (Some "image-editor-output"%string)
                                (Some (mkValue (Some "x"%string) None))))
                 "https://elsewhere.example" None] in
  listening s = false /\ play (map Message msgs) s = s.
Proof.
  cbn zeta. split; [reflexivity|].
  apply messages_ignored_while_not_listening. reflexivity.
Defined.

End EditorFacts.
